(** * Route handlers of the social-feed backend

    A shallow embedding of [routes/api/posts.js] and [routes/api/auth.js].
    Every handler is an [async (req, res) => ...] function that talks to the
    Mongoose models and writes on the Express response; it is embedded as a
    computation in a state-and-exception monad over a [World] made of the
    document store, the response object and the tokens the signer produced. *)

From stdpp Require Import base strings list gmap.

Local Open Scope string_scope.
Local Open Scope Z_scope.

(** ** Documents *)

(** An entry of [post.likes]: [{ user }]. *)
Record Like := { like_user : string }.

(** An entry of [post.comments]; [comment_id] is the [id] Mongoose gives the
    subdocument, [comment_user] the id of its writer. *)
Record Comment := {
  comment_id : string;
  comment_text : string;
  comment_name : string;
  comment_avatar : string;
  comment_user : string
}.

(** A Post document. Its [_id] is the key it is stored under. *)
Record Post := {
  post_text : string;
  post_name : string;
  post_avatar : string;
  post_user : string;
  likes : list Like;
  comments : list Comment
}.

(** A User document; [user_password] is the stored hash. *)
Record User := {
  user_id : string;
  user_name : string;
  user_email : string;
  user_avatar : string;
  user_password : string
}.

(** The database behind the models. [connected] is false when
    [mongoose.connect] failed: [connectDB] only logs that error, so the
    handlers can run without a connection. *)
Record Store := {
  connected : bool;
  users : list User;
  posts : gmap string Post
}.

Definition set_likes (ls : list Like) (p : Post) : Post :=
  {| post_text := post_text p; post_name := post_name p;
     post_avatar := post_avatar p; post_user := post_user p;
     likes := ls; comments := comments p |}.

Definition set_comments (cs : list Comment) (p : Post) : Post :=
  {| post_text := post_text p; post_name := post_name p;
     post_avatar := post_avatar p; post_user := post_user p;
     likes := likes p; comments := cs |}.

Definition set_posts (ps : gmap string Post) (s : Store) : Store :=
  {| connected := connected s; users := users s; posts := ps |}.

(** ** Responses, exceptions and the world *)

(** The payload [jwt.sign] turns into a token: [{ user: { id } }] and the
    [expiresIn] option. The signature itself is the signer's business. *)
Record Token := { token_user : string; token_expiresIn : Z }.

Inductive Body :=
  | Msg (m : string)             (* { msg: m } *)
  | MsgMsg (m : string)          (* { msg: { msg: m } } *)
  | Text (t : string)            (* a plain string *)
  | Errors (ms : list string)    (* { errors: [{ msg }, ...] } *)
  | PostDoc (p : Post)
  | LikeList (ls : list Like)
  | CommentList (cs : list Comment)
  | TokenBody (t : Token).       (* { token } *)

Record Response := { status : Z; body : Body }.

Inductive Exn :=
  | CastError_ObjectId    (* Mongoose CastError, err.kind === 'ObjectId' *)
  | TypeError             (* property read on null *)
  | ConnectionError       (* the store cannot be reached *)
  | IllegalArguments      (* bcrypt.compare on a missing argument *)
  | HeadersSent.          (* second write on a response already sent *)

(** [err.kind === 'ObjectId'] *)
Definition kind_is_ObjectId (err : Exn) : bool :=
  match err with CastError_ObjectId => true | _ => false end.

Record World := {
  db : Store;
  res : option Response;     (* what went out on [res], if anything *)
  signed : list Token        (* tokens produced by [jwt.sign], latest first *)
}.

Definition M (A : Type) : Type := World → (Exn + A) * World.

#[global] Instance M_ret : MRet M := λ A a w, (inr a, w).
#[global] Instance M_bind : MBind M := λ A B k m w,
  match m w with
  | (inl e, w') => (inl e, w')
  | (inr a, w') => k a w'
  end.
#[global] Instance M_throw : MThrow Exn M := λ A e w, (inl e, w).

(** [try { body } catch (err) { handler }] *)
Definition try_catch {A} (body : M A) (handler : Exn → M A) : M A := λ w,
  match body w with
  | (inl e, w') => handler e w'
  | r => r
  end.

(** [res.status(code).send(b)] / [.json(b)]; Express refuses a second write. *)
Definition respond (code : Z) (b : Body) : M unit := λ w,
  match res w with
  | Some _ => (inl HeadersSent, w)
  | None => (inr (), {| db := db w; res := Some {| status := code; body := b |};
                        signed := signed w |})
  end.

(** Reading a property of a value that may be [null]. *)
Definition deref {A} (o : option A) : M A :=
  match o with
  | Some a => mret a
  | None => mthrow TypeError
  end.

Definition get_db : M Store := λ w, (inr (db w), w).
Definition put_db (s : Store) : M unit := λ w,
  (inr (), {| db := s; res := res w; signed := signed w |}).

(** ** Array methods the handlers use *)

(** [arr.indexOf(v)]: index of the first element equal to [v], else -1. *)
Definition indexOf (v : string) (arr : list string) : Z :=
  match list_find (λ x, x = v) arr with
  | Some (i, _) => Z.of_nat i
  | None => -1
  end.

(** [arr.splice(start, 1)]: a negative [start] counts from the end, and the
    start is clamped to the array; one element is removed there if any. *)
Definition splice1 {A} (start : Z) (arr : list A) : list A :=
  let len := Z.of_nat (length arr) in
  let from := if start <? 0 then Z.max (len + start) 0 else Z.min start len in
  delete (Z.to_nat from) arr.

(** [post.likes.filter((like) => like.user.toString() === id).length] *)
Definition likes_by (id : string) (ls : list Like) : Z :=
  Z.of_nat (length (filter (λ l, like_user l = id) ls)).

(** [post.comments.find((comment) => comment.id === id)] *)
Definition find_comment (id : string) (cs : list Comment) : option Comment :=
  snd <$> list_find (λ c, comment_id c = id) cs.

Section Handlers.

(** Whether Mongoose can cast a string to an ObjectId. *)
Variable castable : string → bool.

(** ** The models *)

(** [Post.findById(id)]: the id is cast before the query is sent. *)
Definition Post_findById (id : string) : M (option Post) :=
  if negb (castable id) then mthrow CastError_ObjectId
  else
    s ← get_db;
    if negb (connected s) then mthrow ConnectionError
    else mret (posts s !! id).

(** The outcome of [Post.findById] on store [s], seen from the handler: the
    document, [null] ([inr None]) or the exception thrown. *)
Definition lookup_post (s : Store) (id : string) : Exn + option Post :=
  if negb (castable id) then inl CastError_ObjectId
  else if negb (connected s) then inl ConnectionError
  else inr (posts s !! id).

(** [post.save()] of the document loaded under [id]. *)
Definition Post_save (id : string) (p : Post) : M unit :=
  s ← get_db;
  if negb (connected s) then mthrow ConnectionError
  else put_db (set_posts (<[id := p]> (posts s)) s).

(** [post.remove()] *)
Definition Post_remove (id : string) : M unit :=
  s ← get_db;
  if negb (connected s) then mthrow ConnectionError
  else put_db (set_posts (delete id (posts s)) s).

(** [User.findById(id).select('-password')]; the handlers below read only
    [name] and [avatar] of the result. *)
Definition User_findById (id : string) : M (option User) :=
  if negb (castable id) then mthrow CastError_ObjectId
  else
    s ← get_db;
    if negb (connected s) then mthrow ConnectionError
    else mret (snd <$> list_find (λ u, user_id u = id) (users s)).

(** The outcome of [User.findById] on store [s], seen from the handler. *)
Definition lookup_user (s : Store) (id : string) : Exn + option User :=
  if negb (castable id) then inl CastError_ObjectId
  else if negb (connected s) then inl ConnectionError
  else inr (snd <$> list_find (λ u, user_id u = id) (users s)).

(** [User.findOne({ email })] *)
Definition User_findOne (email : string) : M (option User) :=
  s ← get_db;
  if negb (connected s) then mthrow ConnectionError
  else mret (snd <$> list_find (λ u, user_email u = email) (users s)).

(** ** routes/api/posts.js *)

(** [router.get('/:post_id', auth, ...)] *)
Definition getById (post_id : string) : M unit :=
  try_catch
    (post ← Post_findById post_id;
     match post with
     | None => respond 404 (Msg "No post found!")
     | Some p => respond 200 (PostDoc p)
     end)
    (λ err,
       if kind_is_ObjectId err then respond 404 (Msg "No post found!")
       else respond 500 (Text "Server error!")).

(** [router.delete('/:post_id', auth, ...)]; [user] is [req.user.id]. *)
Definition deleteById (post_id user : string) : M unit :=
  try_catch
    (post ← Post_findById post_id;
     match post with
     | None => respond 404 (Msg "No post found!")
     | Some p =>
         if bool_decide (post_user p ≠ user)
         then respond 401 (Msg "You are note authorized!")
         else
           Post_remove post_id;;
           respond 200 (Msg "Post removed.")
     end)
    (λ err,
       if kind_is_ObjectId err then respond 404 (MsgMsg "No post found!")
       else respond 500 (Text "Server error!")).

(** [router.put('/like/:post_id', auth, ...)] *)
Definition like (post_id user : string) : M unit :=
  try_catch
    (post ← Post_findById post_id;
     p ← deref post;
     if 0 <? likes_by user (likes p)
     then respond 400 (Msg "You already liked post")
     else
       let p' := set_likes ({| like_user := user |} :: likes p) p in
       Post_save post_id p';;
       respond 200 (LikeList (likes p')))
    (λ err, respond 500 (Text "Server error!")).

(** [router.put('/unlike/:post_id', auth, ...)] *)
Definition unlike (post_id user : string) : M unit :=
  try_catch
    (post ← Post_findById post_id;
     p ← deref post;
     if likes_by user (likes p) =? 0
     then respond 400 (Msg "You dind't lik it before.")
     else
       let removeIndex := indexOf user (like_user <$> likes p) in
       let p' := set_likes (splice1 removeIndex (likes p)) p in
       Post_save post_id p';;
       respond 200 (LikeList (likes p')))
    (λ err, respond 500 (Text "Server error!")).

(** The [check('text', 'Text is required.').not().isEmpty()] validator. *)
Definition validate_text (text : string) : list string :=
  if bool_decide (text = "") then ["Text is required."] else [].

(** [router.put('/comment/:post_id', [auth, [check ...]], ...)]; [new_id] is
    the id Mongoose gives the new subdocument. *)
Definition addComment (post_id user text new_id : string) : M unit :=
  let errors := validate_text text in
  if negb (bool_decide (errors = [])) then respond 400 (Errors errors)
  else
    try_catch
      (usr ← User_findById user;
       post ← Post_findById post_id;
       u ← deref usr;
       let newComment :=
         {| comment_id := new_id; comment_text := text;
            comment_name := user_name u; comment_avatar := user_avatar u;
            comment_user := user |} in
       p ← deref post;
       let p' := set_comments (newComment :: comments p) p in
       Post_save post_id p';;
       respond 200 (PostDoc p'))
      (λ err, respond 500 (Text "Server Error!")).

(** [router.delete('/comment/:post_id/:comment_id', auth, ...)] *)
Definition removeComment (post_id comment_id user : string) : M unit :=
  try_catch
    (post ← Post_findById post_id;
     p ← deref post;
     match find_comment comment_id (comments p) with
     | None => respond 404 (Msg "Comment does not exist !")
     | Some comment =>
         if bool_decide (comment_user comment ≠ user)
         then respond 401 (Msg "You are not authorized !")
         else
           let removeIndex := indexOf user (comment_user <$> comments p) in
           let p' := set_comments (splice1 removeIndex (comments p)) p in
           Post_save post_id p';;
           respond 200 (CommentList (comments p'))
     end)
    (λ err, respond 500 (Text "Server Error!")).

(** Modelled from the spec: the Post schema ([models/Post]) is not among the
    sources; a Post made by [create] has [likes = []] and [comments = []].
    This is [new Post({ text, name, avatar, user })]. *)
Definition new_Post (text name avatar user : string) : Post :=
  {| post_text := text; post_name := name; post_avatar := avatar;
     post_user := user; likes := []; comments := [] |}.

(** [router.post('/', [auth, [check ...]], ...)]; [new_id] is the [_id]
    Mongoose makes for the new document, under which [newPost.save()] stores
    it. *)
Definition createPost (user text new_id : string) : M unit :=
  let errors := validate_text text in
  if negb (bool_decide (errors = [])) then respond 400 (Errors errors)
  else
    try_catch
      (usr ← User_findById user;
       u ← deref usr;
       let newPost := new_Post text (user_name u) (user_avatar u) user in
       Post_save new_id newPost;;
       respond 200 (PostDoc newPost))
      (λ err, respond 500 (Text "Server Error!")).

(** ** routes/api/auth.js *)

(** The validator's [isEmail] and the hash comparison of bcryptjs. *)
Variable isEmail : string → bool.
Variable bcrypt_compare : string → string → bool.

(** [check('email', ...).isEmail()] and [check('password', ...).exists()] *)
Definition validate_login (email : string) (password : option string)
  : list string :=
  (if isEmail email then [] else ["Please enter a valid email"]) ++
  (if password is Some _ then [] else ["You must enter a password"]).

(** [await bcrypt.compare(password, hash)] *)
Definition compare (password : option string) (hash : string) : M bool :=
  match password with
  | Some pw => mret (bcrypt_compare pw hash)
  | None => mthrow IllegalArguments
  end.

(** [jwt.sign(payload, secret, { expiresIn }, callback)] up to the call of
    the callback: the token is made and handed over. *)
Definition jwt_sign (id : string) (expiresIn : Z) : M Token := λ w,
  let t := {| token_user := id; token_expiresIn := expiresIn |} in
  (inr t, {| db := db w; res := res w; signed := t :: signed w |}).

(** [router.post('/', [check ...], ...)]. The signer calls the callback
    from a later tick, so the callback's [res.json({ token })] runs after the
    [try] block is left and what it throws is not caught there. *)
Definition login (email : string) (password : option string) : M unit :=
  let errors := validate_login email password in
  if negb (bool_decide (errors = [])) then respond 400 (Errors errors)
  else
    token ← try_catch
      (user ← User_findOne email;
       match user with
       | None =>
           respond 400 (Errors ["Invalid credential"]);;
           mret None
       | Some u =>
           isMatch ← compare password (user_password u);
           (if negb isMatch
            then respond 400 (Errors ["Invalid credential"])
            else mret ());;
           t ← jwt_sign (user_id u) 36000;
           mret (Some t)
       end)
      (λ err, respond 500 (Text "Server error");; mret None);
    match token with
    | Some t => respond 200 (TokenBody t)
    | None => mret ()
    end.

End Handlers.

(** ** Serving one request *)

Definition fresh (s : Store) : World :=
  {| db := s; res := None; signed := [] |}.

(** The world a handler leaves when it is run on store [s] with a response
    nothing was written on yet. *)
Definition serve (h : M unit) (s : Store) : World := snd (h (fresh s)).

(** The world after a handler that wrote one response and signed nothing. *)
Definition replied (s : Store) (code : Z) (b : Body) : World :=
  {| db := s; res := Some {| status := code; body := b |}; signed := [] |}.

Definition response (h : M unit) (s : Store) : option Response :=
  res (serve h s).

Definition store_after (h : M unit) (s : Store) : Store := db (serve h s).

Definition issued (h : M unit) (s : Store) : list Token := signed (serve h s).

(** The exception that escapes the handler, if one does. *)
Definition uncaught (h : M unit) (s : Store) : option Exn :=
  match fst (h (fresh s)) with inl e => Some e | inr _ => None end.

(** Like and unlike requests, one after the other. *)
Inductive Op :=
  | OpLike (post_id user : string)
  | OpUnlike (post_id user : string).

Definition handler_of (castable : string → bool) (o : Op) : M unit :=
  match o with
  | OpLike id u => like castable id u
  | OpUnlike id u => unlike castable id u
  end.

Definition run_ops (castable : string → bool) (ops : list Op) (s : Store)
  : Store :=
  foldl (λ s' o, store_after (handler_of castable o) s') s ops.

(** At most one like per user on a post. *)
Definition one_like_per_user (p : Post) : Prop :=
  NoDup (like_user <$> likes p).

(** The requests [routes/api/posts.js] serves on one post, and the handler
    the router gives each of them to. *)
Inductive Request :=
  | CreatePost (user text new_id : string)
  | GetPost (post_id : string)
  | DeletePost (post_id user : string)
  | LikePost (post_id user : string)
  | UnlikePost (post_id user : string)
  | AddComment (post_id user text new_id : string)
  | RemoveComment (post_id comment_id user : string).

Definition route (castable : string → bool) (r : Request) : M unit :=
  match r with
  | CreatePost user text new_id => createPost castable user text new_id
  | GetPost id => getById castable id
  | DeletePost id user => deleteById castable id user
  | LikePost id user => like castable id user
  | UnlikePost id user => unlike castable id user
  | AddComment id user text new_id => addComment castable id user text new_id
  | RemoveComment id cid user => removeComment castable id cid user
  end.

(** The id of the post a request is about. *)
Definition target (r : Request) : string :=
  match r with
  | CreatePost _ _ new_id => new_id
  | GetPost id | DeletePost id _ | LikePost id _ | UnlikePost id _
  | AddComment id _ _ _ | RemoveComment id _ _ => id
  end.

(** The status codes the handlers of posts.js write. *)
Definition status_of_posts_js : list Z := [200; 400; 401; 404; 500].

(** The failure classes of the interface, read off the status code. *)
Definition NotFound (r : option Response) : Prop := status <$> r = Some 404.
Definition Forbidden (r : option Response) : Prop := status <$> r = Some 401.
Definition StoreUnavailable (r : option Response) : Prop :=
  status <$> r = Some 500.
Definition Succeeded (r : option Response) : Prop := status <$> r = Some 200.
Definition DuplicateAction (r : option Response) : Prop :=
  r = Some {| status := 400; body := Msg "You already liked post" |}.
Definition InvalidCredential (r : option Response) : Prop :=
  r = Some {| status := 400; body := Errors ["Invalid credential"] |}.

(** ** A store to run the handlers on *)

Module Demo.

Definition castable (id : string) : bool := bool_decide (String.length id = 24%nat).
Definition isEmail (e : string) : bool :=
  bool_decide (e ≠ "") && bool_decide (e ≠ "not-an-email").
(* the hash of a password is modelled as the password behind a prefix *)
Definition bcrypt_compare (pw hash : string) : bool :=
  bool_decide (hash = "$2a$" +:+ pw).

Definition U1 : User :=
  {| user_id := "5e0000000000000000000001"; user_name := "Una";
     user_email := "u1@x.com"; user_avatar := "a1";
     user_password := "$2a$secret1" |}.
Definition U2 : User :=
  {| user_id := "5e0000000000000000000002"; user_name := "Deux";
     user_email := "u2@x.com"; user_avatar := "a2";
     user_password := "$2a$secret2" |}.

Definition pid : string := "5f0000000000000000000001".
Definition absent_pid : string := "5f00000000000000000000ff".
Definition cid : string := "600000000000000000000001".
Definition cid' : string := "600000000000000000000002".

(** The post of U1 right after [create(U1, "hello")]. *)
Definition P : Post :=
  {| post_text := "hello"; post_name := "Una"; post_avatar := "a1";
     post_user := user_id U1; likes := []; comments := [] |}.

Definition store0 : Store :=
  {| connected := true; users := [U1; U2]; posts := {[ pid := P ]} |}.

Definition u1 : string := user_id U1.
Definition u2 : string := user_id U2.

(** [store0] once U1 has liked the post. *)
Definition P_liked : Post := set_likes [ {| like_user := u1 |} ] P.
Definition store_liked : Store := store_after (like castable pid u1) store0.

(** [store0] after [addComment(P.id, U2, "hi")]. *)
Definition hi : Comment :=
  {| comment_id := cid; comment_text := "hi"; comment_name := "Deux";
     comment_avatar := "a2"; comment_user := u2 |}.
Definition P_commented : Post := set_comments [hi] P.
Definition store_commented : Store :=
  store_after (addComment castable pid u2 "hi" cid) store0.

(** ... and after a second comment of U2, which sits in front of the first. *)
Definition again : Comment :=
  {| comment_id := cid'; comment_text := "again"; comment_name := "Deux";
     comment_avatar := "a2"; comment_user := u2 |}.
Definition P_commented_twice : Post := set_comments [again; hi] P.
Definition store_commented_twice : Store :=
  store_after (addComment castable pid u2 "again" cid') store_commented.

Definition login (email : string) (password : option string) : M unit :=
  login isEmail bcrypt_compare email password.

(** [store0] behind a connection that failed. *)
Definition store_down : Store :=
  {| connected := false; users := [U1; U2]; posts := {[ pid := P ]} |}.

(** The id of a post still to be made, and the post U2 makes under it. *)
Definition new_pid : string := "5f0000000000000000000002".
Definition P_new : Post :=
  {| post_text := "salut"; post_name := "Deux"; post_avatar := "a2";
     post_user := u2; likes := []; comments := [] |}.

End Demo.

(** * Properties *)

(** ** The array methods *)

Lemma likes_by_zero (id : string) (ls : list Like) :
  likes_by id ls = 0 ↔ id ∉ like_user <$> ls.
Proof.
  unfold likes_by. induction ls as [|l ls IH]; simpl.
  - split; [intros _; apply not_elem_of_nil | done].
  - rewrite filter_cons, not_elem_of_cons.
    destruct (decide (like_user l = id)) as [E|E]; simpl.
    + split; [lia | intros [N _]; congruence].
    + rewrite IH. split; [intros H; split; [congruence | done] | tauto].
Qed.

Lemma likes_by_nonneg (id : string) (ls : list Like) : 0 ≤ likes_by id ls.
Proof. unfold likes_by. lia. Qed.

Lemma already_liked (id : string) (ls : list Like) :
  (0 <? likes_by id ls) = true ↔ id ∈ like_user <$> ls.
Proof.
  rewrite Z.ltb_lt. pose proof (likes_by_nonneg id ls) as Hn.
  pose proof (likes_by_zero id ls) as Hz.
  destruct (decide (id ∈ like_user <$> ls)) as [Hin|Hin].
  - split; [done | intros _].
    destruct (decide (likes_by id ls = 0)) as [E|E]; [|lia].
    apply Hz in E. done.
  - split; [|done]. intros Hlt. apply Hz in Hin. lia.
Qed.

Lemma indexOf_first (v : string) (arr : list string) :
  v ∈ arr →
  ∃ i : nat, indexOf v arr = Z.of_nat i ∧ arr !! i = Some v ∧
             ∀ j x, arr !! j = Some x → (j < i)%nat → x ≠ v.
Proof.
  intros Hin. unfold indexOf.
  destruct (list_find (λ x, x = v) arr) as [[i x]|] eqn:E.
  - apply list_find_Some in E as (Hi & -> & Hlt). exists i. done.
  - apply list_find_None in E. rewrite Forall_forall in E.
    destruct (E v Hin). done.
Qed.

Lemma splice1_at {A} (i : nat) (arr : list A) :
  (i < length arr)%nat → splice1 (Z.of_nat i) arr = delete i arr.
Proof.
  intros Hi. unfold splice1.
  destruct (Z.of_nat i <? 0) eqn:E; [apply Z.ltb_lt in E; lia|].
  f_equal. lia.
Qed.

Lemma indexOf_head (v : string) (arr : list string) : indexOf v (v :: arr) = 0.
Proof. unfold indexOf. simpl. rewrite decide_True by done. done. Qed.

(** ** What each handler leaves behind

    One equation per handler: the world after the request, by cases on what
    the lookup gives. *)

Section Properties.

Variable castable : string → bool.

Ltac run :=
  unfold serve, fresh, try_catch, Post_findById, Post_save, Post_remove,
    User_findById, deref, respond, get_db, put_db, lookup_post, replied,
    mbind, M_bind, mret, M_ret, mthrow, M_throw; simpl.

Lemma Post_findById_run (id : string) (w : World) :
  Post_findById castable id w =
  match lookup_post castable (db w) id with
  | inl e => (inl e, w)
  | inr o => (inr o, w)
  end.
Proof. run. destruct (castable id); simpl; [|reflexivity].
  destruct (connected (db w)); reflexivity. Qed.

Lemma serve_getById (s : Store) (id : string) :
  serve (getById castable id) s =
  match lookup_post castable s id with
  | inr (Some p) => replied s 200 (PostDoc p)
  | inr None => replied s 404 (Msg "No post found!")
  | inl e => if kind_is_ObjectId e then replied s 404 (Msg "No post found!")
             else replied s 500 (Text "Server error!")
  end.
Proof.
  unfold getById. run.
  destruct (castable id); simpl; [|reflexivity].
  destruct (connected s) eqn:Hc; simpl; [|reflexivity].
  destruct (posts s !! id); reflexivity.
Qed.

Lemma serve_deleteById (s : Store) (id user : string) :
  serve (deleteById castable id user) s =
  match lookup_post castable s id with
  | inr (Some p) =>
      if bool_decide (post_user p ≠ user)
      then replied s 401 (Msg "You are note authorized!")
      else replied (set_posts (delete id (posts s)) s) 200 (Msg "Post removed.")
  | inr None => replied s 404 (Msg "No post found!")
  | inl e => if kind_is_ObjectId e then replied s 404 (MsgMsg "No post found!")
             else replied s 500 (Text "Server error!")
  end.
Proof.
  unfold deleteById. run.
  destruct (castable id); simpl; [|reflexivity].
  destruct (connected s) eqn:Hc; simpl; [|reflexivity].
  destruct (posts s !! id) as [p|]; simpl; [|reflexivity].
  destruct (bool_decide (post_user p ≠ user)); simpl; [reflexivity|].
  rewrite Hc. reflexivity.
Qed.

Lemma serve_like (s : Store) (id user : string) :
  serve (like castable id user) s =
  match lookup_post castable s id with
  | inr (Some p) =>
      if 0 <? likes_by user (likes p)
      then replied s 400 (Msg "You already liked post")
      else
        let ls := {| like_user := user |} :: likes p in
        replied (set_posts (<[id := set_likes ls p]> (posts s)) s)
                200 (LikeList ls)
  | _ => replied s 500 (Text "Server error!")
  end.
Proof.
  unfold like. run.
  destruct (castable id); simpl; [|reflexivity].
  destruct (connected s) eqn:Hc; simpl; [|reflexivity].
  destruct (posts s !! id) as [p|]; simpl; [|reflexivity].
  destruct (0 <? likes_by user (likes p)); simpl; [reflexivity|].
  rewrite Hc. reflexivity.
Qed.

Lemma serve_unlike (s : Store) (id user : string) :
  serve (unlike castable id user) s =
  match lookup_post castable s id with
  | inr (Some p) =>
      if likes_by user (likes p) =? 0
      then replied s 400 (Msg "You dind't lik it before.")
      else
        let ls := splice1 (indexOf user (like_user <$> likes p)) (likes p) in
        replied (set_posts (<[id := set_likes ls p]> (posts s)) s)
                200 (LikeList ls)
  | _ => replied s 500 (Text "Server error!")
  end.
Proof.
  unfold unlike. run.
  destruct (castable id); simpl; [|reflexivity].
  destruct (connected s) eqn:Hc; simpl; [|reflexivity].
  destruct (posts s !! id) as [p|]; simpl; [|reflexivity].
  destruct (likes_by user (likes p) =? 0); simpl; [reflexivity|].
  rewrite Hc. reflexivity.
Qed.

Lemma serve_removeComment (s : Store) (id cid user : string) :
  serve (removeComment castable id cid user) s =
  match lookup_post castable s id with
  | inr (Some p) =>
      match find_comment cid (comments p) with
      | None => replied s 404 (Msg "Comment does not exist !")
      | Some c =>
          if bool_decide (comment_user c ≠ user)
          then replied s 401 (Msg "You are not authorized !")
          else
            let cs := splice1 (indexOf user (comment_user <$> comments p))
                              (comments p) in
            replied (set_posts (<[id := set_comments cs p]> (posts s)) s)
                    200 (CommentList cs)
      end
  | _ => replied s 500 (Text "Server Error!")
  end.
Proof.
  unfold removeComment. run.
  destruct (castable id); simpl; [|reflexivity].
  destruct (connected s) eqn:Hc; simpl; [|reflexivity].
  destruct (posts s !! id) as [p|]; simpl; [|reflexivity].
  destruct (find_comment cid (comments p)) as [c|]; simpl; [|reflexivity].
  destruct (bool_decide (comment_user c ≠ user)); simpl; [reflexivity|].
  rewrite Hc. reflexivity.
Qed.

Lemma serve_addComment (s : Store) (id user text new_id : string) :
  text ≠ "" →
  serve (addComment castable id user text new_id) s =
  match lookup_user castable s user, lookup_post castable s id with
  | inr (Some u), inr (Some p) =>
      let c := {| comment_id := new_id; comment_text := text;
                  comment_name := user_name u; comment_avatar := user_avatar u;
                  comment_user := user |} in
      let p' := set_comments (c :: comments p) p in
      replied (set_posts (<[id := p']> (posts s)) s) 200 (PostDoc p')
  | _, _ => replied s 500 (Text "Server Error!")
  end.
Proof.
  intros Htext. unfold addComment, validate_text, lookup_user.
  rewrite (bool_decide_eq_false_2 (text = "")) by exact Htext. simpl. run.
  destruct (castable user); simpl; [|reflexivity].
  destruct (connected s) eqn:Hc; simpl; [|destruct (castable id); reflexivity].
  destruct (castable id); simpl;
    [|destruct (list_find _ (users s)) as [[? ?]|]; reflexivity].
  rewrite Hc. simpl.
  destruct (list_find _ (users s)) as [[k u]|]; simpl;
    [|destruct (posts s !! id); reflexivity].
  destruct (posts s !! id) as [p|]; simpl; [|reflexivity].
  rewrite Hc. reflexivity.
Qed.

Lemma lookup_post_Some (s : Store) (id : string) (p : Post) :
  lookup_post castable s id = inr (Some p) ↔
  castable id = true ∧ connected s = true ∧ posts s !! id = Some p.
Proof.
  unfold lookup_post.
  destruct (castable id), (connected s); simpl; split;
    try (intros H; discriminate H); try (intros (? & ? & ?); discriminate).
  - intros [= ->]. done.
  - intros (_ & _ & ->). done.
Qed.

End Properties.

(** ** Likes *)

Section Likes.

Variable castable : string → bool.

Lemma unlike_first_like (user : string) (ls : list Like) :
  splice1 (indexOf user (like_user <$> {| like_user := user |} :: ls))
          ({| like_user := user |} :: ls) = ls.
Proof. rewrite fmap_cons. simpl. rewrite indexOf_head. reflexivity. Qed.

Lemma splice1_sublist {A} (start : Z) (arr : list A) :
  splice1 start arr `sublist_of` arr.
Proof. unfold splice1. apply sublist_delete. Qed.

Lemma splice1_fmap {A B} (f : A → B) (start : Z) (arr : list A) :
  f <$> splice1 start arr = splice1 start (f <$> arr).
Proof. unfold splice1. rewrite list_fmap_delete, length_fmap. reflexivity. Qed.

(** One request keeps the invariant on every post of the store. *)
Lemma like_keeps_invariant (s : Store) (id user k : string) :
  (∀ p, posts s !! k = Some p → one_like_per_user p) →
  ∀ p, posts (store_after (like castable id user) s) !! k = Some p →
       one_like_per_user p.
Proof.
  intros Hinv p. unfold store_after. rewrite serve_like.
  destruct (lookup_post castable s id) as [e|[q|]] eqn:Hq; simpl;
    [apply Hinv | | apply Hinv].
  destruct (0 <? likes_by user (likes q)) eqn:Hdup; simpl; [apply Hinv|].
  apply lookup_post_Some in Hq as (_ & _ & Hq).
  destruct (decide (id = k)) as [->|Hne].
  - rewrite lookup_insert_eq. intros [= <-].
    unfold one_like_per_user. simpl. apply NoDup_cons. split.
    + intros Hin. apply already_liked in Hin. congruence.
    + apply (Hinv q Hq).
  - rewrite lookup_insert_ne by done. apply Hinv.
Qed.

Lemma unlike_keeps_invariant (s : Store) (id user k : string) :
  (∀ p, posts s !! k = Some p → one_like_per_user p) →
  ∀ p, posts (store_after (unlike castable id user) s) !! k = Some p →
       one_like_per_user p.
Proof.
  intros Hinv p. unfold store_after. rewrite serve_unlike.
  destruct (lookup_post castable s id) as [e|[q|]] eqn:Hq; simpl;
    [apply Hinv | | apply Hinv].
  destruct (likes_by user (likes q) =? 0); simpl; [apply Hinv|].
  apply lookup_post_Some in Hq as (_ & _ & Hq).
  destruct (decide (id = k)) as [->|Hne].
  - rewrite lookup_insert_eq. intros [= <-].
    unfold one_like_per_user. simpl. rewrite splice1_fmap.
    eapply sublist_NoDup; [apply (Hinv q Hq) | apply splice1_sublist].
  - rewrite lookup_insert_ne by done. apply Hinv.
Qed.

Lemma run_ops_keeps_invariant (ops : list Op) (s : Store) (k : string) :
  (∀ p, posts s !! k = Some p → one_like_per_user p) →
  ∀ p, posts (run_ops castable ops s) !! k = Some p → one_like_per_user p.
Proof.
  revert s. induction ops as [|o ops IH]; intros s Hinv; [exact Hinv|].
  simpl. apply IH. destruct o as [id u|id u]; simpl.
  - apply like_keeps_invariant, Hinv.
  - apply unlike_keeps_invariant, Hinv.
Qed.

(** C5: when a like by the identity is already in the post's like sequence,
    another like request of that identity on that post is answered with
    DuplicateAction (400, "You already liked post") and the store, hence the
    like sequence and its length, is left as it was. *)
Theorem like_again_is_duplicate (s : Store) (id user : string) (p : Post) :
  lookup_post castable s id = inr (Some p) →
  user ∈ like_user <$> likes p →
  DuplicateAction (response (like castable id user) s) ∧
  store_after (like castable id user) s = s ∧
  likes <$> posts (store_after (like castable id user) s) !! id
    = Some (likes p).
Proof.
  intros Hp Hin. unfold DuplicateAction, response, store_after.
  rewrite serve_like, Hp. apply already_liked in Hin. rewrite Hin. simpl.
  apply lookup_post_Some in Hp as (_ & _ & ->). done.
Qed.

(** C6: on a post where the identity has no like, the like request succeeds
    and the unlike request that follows it answers with the like sequence
    of before the like, element for element, and stores it. *)
Theorem unlike_after_like_restores (s : Store) (id user : string) (p : Post) :
  lookup_post castable s id = inr (Some p) →
  user ∉ like_user <$> likes p →
  response (like castable id user) s
    = Some {| status := 200;
              body := LikeList ({| like_user := user |} :: likes p) |} ∧
  response (unlike castable id user) (store_after (like castable id user) s)
    = Some {| status := 200; body := LikeList (likes p) |} ∧
  store_after (unlike castable id user) (store_after (like castable id user) s)
    = s.
Proof.
  intros Hp Hnew. unfold response, store_after.
  rewrite serve_like, Hp.
  destruct (0 <? likes_by user (likes p)) eqn:Hdup;
    [apply already_liked in Hdup; done|].
  simpl. split; [reflexivity|].
  apply lookup_post_Some in Hp as (Hc & Hon & Hp).
  set (p1 := set_likes ({| like_user := user |} :: likes p) p).
  set (s1 := set_posts (<[id:=p1]> (posts s)) s).
  assert (lookup_post castable s1 id = inr (Some p1)) as H1.
  { apply lookup_post_Some. subst s1. simpl.
    rewrite lookup_insert_eq. done. }
  rewrite serve_unlike, H1.
  assert ((likes_by user (likes p1) =? 0) = false) as ->.
  { apply Z.eqb_neq. intros Hz. apply likes_by_zero in Hz.
    apply Hz. subst p1. simpl. apply list_elem_of_here. }
  subst p1. simpl likes. rewrite unlike_first_like. simpl.
  split; [reflexivity|].
  subst s1. unfold set_posts at 1. simpl.
  rewrite insert_insert_eq.
  replace (set_likes (likes p) _) with p by (destruct p; reflexivity).
  rewrite insert_id by done. destruct s; reflexivity.
Qed.

(** C8: starting from a post whose like sequence holds each user id at most
    once, the post found under the same id after any sequence of like and
    unlike requests (on any posts, by any users) still holds each user id
    at most once. *)
Theorem likes_stay_unique (ops : list Op) (s : Store) (id : string)
    (p0 p : Post) :
  posts s !! id = Some p0 →
  one_like_per_user p0 →
  posts (run_ops castable ops s) !! id = Some p →
  one_like_per_user p.
Proof.
  intros H0 Hinv. apply run_ops_keeps_invariant.
  intros q Hq. rewrite H0 in Hq. injection Hq as <-. exact Hinv.
Qed.

(** A like request on an id no post is stored under. *)
Lemma like_absent (s : Store) (id user : string) :
  lookup_post castable s id = inr None →
  response (like castable id user) s
    = Some {| status := 500; body := Text "Server error!" |}.
Proof. intros H. unfold response. rewrite serve_like, H. reflexivity. Qed.

End Likes.

(** ** Reading and deleting posts *)

Section Posts.

Variable castable : string → bool.

(** C7: for a stored post, a delete request of an identity that is not the
    author is answered with Forbidden (401), the store is left as it was and
    the post is still served by getById; a delete request of the author is
    answered with the confirmation, and the post is gone from the store. *)
Theorem deleteById_ownership (s : Store) (id user : string) (p : Post) :
  lookup_post castable s id = inr (Some p) →
  (user ≠ post_user p →
     Forbidden (response (deleteById castable id user) s) ∧
     store_after (deleteById castable id user) s = s ∧
     response (getById castable id) (store_after (deleteById castable id user) s)
       = Some {| status := 200; body := PostDoc p |}) ∧
  (user = post_user p →
     response (deleteById castable id user) s
       = Some {| status := 200; body := Msg "Post removed." |} ∧
     posts (store_after (deleteById castable id user) s) !! id = None ∧
     NotFound (response (getById castable id)
                        (store_after (deleteById castable id user) s))).
Proof.
  intros Hp. unfold Forbidden, NotFound, response, store_after.
  rewrite serve_deleteById, Hp. split.
  - intros Hne. rewrite bool_decide_eq_true_2 by congruence. simpl.
    rewrite serve_getById, Hp. done.
  - intros ->. rewrite bool_decide_eq_false_2 by (intros H; apply H; done).
    simpl. rewrite serve_getById. unfold lookup_post. simpl.
    apply lookup_post_Some in Hp as (-> & -> & _). simpl.
    rewrite lookup_delete_eq. done.
Qed.

(** C9: for an id that cannot be cast to a document id, getById and
    deleteById answer NotFound (404), as they do for a well-formed id no
    post is stored under, while like, unlike, addComment (given a text) and
    removeComment answer StoreUnavailable (500). *)
Theorem malformed_post_id (s : Store) (bad absent user cid text new_id : string) :
  castable bad = false →
  text ≠ "" →
  (NotFound (response (getById castable bad) s) ∧
   NotFound (response (deleteById castable bad user) s)) ∧
  (lookup_post castable s absent = inr None →
   NotFound (response (getById castable absent) s) ∧
   NotFound (response (deleteById castable absent user) s)) ∧
  (StoreUnavailable (response (like castable bad user) s) ∧
   StoreUnavailable (response (unlike castable bad user) s) ∧
   StoreUnavailable (response (addComment castable bad user text new_id) s) ∧
   StoreUnavailable (response (removeComment castable bad cid user) s)).
Proof.
  intros Hbad Htext.
  assert (lookup_post castable s bad = inl CastError_ObjectId) as Hl.
  { unfold lookup_post. rewrite Hbad. reflexivity. }
  unfold NotFound, StoreUnavailable, response.
  rewrite !serve_getById, !serve_deleteById, serve_like, serve_unlike,
    serve_removeComment, (serve_addComment _ _ _ _ _ _ Htext), Hl.
  simpl. split; [done|]. split; [intros ->; done|]. repeat split.
  destruct (lookup_user castable s user) as [?|[?|]]; reflexivity.
Qed.

(** C10: a comment request with a text, on a well-formed id that no post is
    stored under, is answered with StoreUnavailable (500), not with
    NotFound, and the store is left as it was. *)
Theorem addComment_absent_post (s : Store) (id user text new_id : string) :
  castable id = true →
  posts s !! id = None →
  text ≠ "" →
  response (addComment castable id user text new_id) s
    = Some {| status := 500; body := Text "Server Error!" |} ∧
  ¬ NotFound (response (addComment castable id user text new_id) s) ∧
  store_after (addComment castable id user text new_id) s = s.
Proof.
  intros Hc Hnone Htext. unfold NotFound, response, store_after.
  rewrite (serve_addComment _ _ _ _ _ _ Htext).
  assert (∀ u, lookup_post castable s id ≠ inr (Some u)) as Hno.
  { intros u Hu. apply lookup_post_Some in Hu as (_ & _ & Hu). congruence. }
  destruct (lookup_user castable s user) as [?|[?|]];
    destruct (lookup_post castable s id) as [?|[q|]]; simpl;
    try (destruct (Hno q); reflexivity); done.
Qed.

End Posts.

(** ** Removing comments *)

Section Comments.

Variable castable : string → bool.

Lemma find_comment_Some (cid : string) (cs : list Comment) (c : Comment) :
  find_comment cid cs = Some c → c ∈ cs ∧ comment_id c = cid.
Proof.
  unfold find_comment.
  destruct (list_find _ cs) as [[i x]|] eqn:E; simpl; [|discriminate].
  intros [= <-]. apply list_find_Some in E as (Hi & Hid & _).
  split; [|exact Hid]. apply list_elem_of_lookup. exists i. exact Hi.
Qed.

(** Splicing at the index [indexOf] gives, for a user who wrote one of the
    comments, cuts out the first comment of that user. *)
Lemma splice_first_by_user (user : string) (cs : list Comment) :
  user ∈ comment_user <$> cs →
  ∃ (before : list Comment) (c : Comment) (after : list Comment),
    cs = (before ++ c :: after)%list ∧
    comment_user c = user ∧
    (∀ c', c' ∈ before → comment_user c' ≠ user) ∧
    splice1 (indexOf user (comment_user <$> cs)) cs = (before ++ after)%list.
Proof.
  intros Hin. destruct (indexOf_first _ _ Hin) as (i & -> & Hi & Hfirst).
  apply list_lookup_fmap_Some in Hi as (c & Hu & Hc).
  exists (take i cs), c, (drop (S i) cs). repeat split.
  - symmetry. apply take_drop_middle. exact Hc.
  - done.
  - intros c' Hc'. apply list_elem_of_lookup in Hc' as (j & Hj).
    apply lookup_take_Some in Hj as (Hj & Hlt).
    apply (Hfirst j). { rewrite list_lookup_fmap, Hj. reflexivity. } exact Hlt.
  - rewrite splice1_at by (eapply lookup_lt_Some; exact Hc).
    apply delete_take_drop.
Qed.

(** C4: when a remove-comment request succeeds, the stored comment sequence
    loses exactly one entry, and that entry is the first comment, in
    sequence order, whose author is the acting identity: the index comes
    from the identity's id, the comment id plays no part in it. *)
Theorem removeComment_removes_first_of_user
    (s : Store) (id cid user : string) (p : Post) :
  posts s !! id = Some p →
  Succeeded (response (removeComment castable id cid user) s) →
  ∃ (before : list Comment) (c : Comment) (after : list Comment),
    comments p = (before ++ c :: after)%list ∧
    comment_user c = user ∧
    (∀ c', c' ∈ before → comment_user c' ≠ user) ∧
    response (removeComment castable id cid user) s
      = Some {| status := 200; body := CommentList (before ++ after)%list |} ∧
    posts (store_after (removeComment castable id cid user) s) !! id
      = Some (set_comments (before ++ after)%list p).
Proof.
  unfold Succeeded, response, store_after. intros Hp.
  rewrite serve_removeComment.
  destruct (lookup_post castable s id) as [e|[q|]] eqn:Hq; simpl;
    try discriminate.
  apply lookup_post_Some in Hq as (_ & _ & Hq).
  rewrite Hp in Hq. injection Hq as <-.
  destruct (find_comment cid (comments p)) as [c|] eqn:Hc; simpl;
    [|discriminate].
  case_bool_decide as Hu; simpl; [discriminate|]. intros _.
  assert (comment_user c = user) as Hcu by (destruct (decide (comment_user c = user)); [done | contradiction]).
  apply find_comment_Some in Hc as (Hin & _).
  assert (user ∈ comment_user <$> comments p) as Huser.
  { rewrite <- Hcu. apply list_elem_of_fmap. exists c. done. }
  destruct (splice_first_by_user _ _ Huser) as (before & c0 & after & Hsplit & H0 & Hfirst & ->).
  exists before, c0, after. rewrite lookup_insert_eq. done.
Qed.

(** C2, as the handler has it: for a stored post and a comment id found in
    it, the request is answered with Forbidden exactly when the identity is
    not the author of the comment found; the store is then left as it was,
    and the comment's author is served. The post's author has no say. *)
Theorem removeComment_forbidden_iff
    (s : Store) (id cid user : string) (p : Post) (c : Comment) :
  lookup_post castable s id = inr (Some p) →
  find_comment cid (comments p) = Some c →
  (Forbidden (response (removeComment castable id cid user) s)
     ↔ user ≠ comment_user c) ∧
  (user ≠ comment_user c →
     store_after (removeComment castable id cid user) s = s) ∧
  (user = comment_user c →
     Succeeded (response (removeComment castable id cid user) s)).
Proof.
  intros Hp Hc. unfold Forbidden, Succeeded, response, store_after.
  rewrite serve_removeComment, Hp, Hc.
  case_bool_decide as Hu; simpl.
  - repeat split; try done; intros; congruence.
  - assert (comment_user c = user) as Hcu by (destruct (decide (comment_user c = user)); [done | contradiction]).
    repeat split; try done; intros; congruence.
Qed.

End Comments.

(** ** Login *)

Section Auth.

Variable isEmail : string → bool.
Variable bcrypt_compare : string → string → bool.

Lemma User_findOne_run (email : string) (w : World) :
  connected (db w) = true →
  User_findOne email w
  = (inr (snd <$> list_find (λ u, user_email u = email) (users (db w))), w).
Proof.
  intros Hc. unfold User_findOne, get_db, mbind, M_bind, mret, M_ret. simpl.
  rewrite Hc. reflexivity.
Qed.

(** The two failure paths of the handler and its success path, for a
    request that passes the validators and a store that answers. *)
Lemma login_unknown_email (s : Store) (email pw : string) :
  isEmail email = true →
  connected s = true →
  list_find (λ u, user_email u = email) (users s) = None →
  login isEmail bcrypt_compare email (Some pw) (fresh s)
  = (inr (), replied s 400 (Errors ["Invalid credential"])).
Proof.
  intros He Hc Hu. unfold login, validate_login. rewrite He. simpl.
  unfold try_catch, mbind, M_bind.
  rewrite User_findOne_run by exact Hc. simpl. rewrite Hu. reflexivity.
Qed.

Lemma login_match (s : Store) (email pw : string) (k : nat) (u : User) :
  isEmail email = true →
  connected s = true →
  list_find (λ u, user_email u = email) (users s) = Some (k, u) →
  bcrypt_compare pw (user_password u) = true →
  login isEmail bcrypt_compare email (Some pw) (fresh s)
  = let t := {| token_user := user_id u; token_expiresIn := 36000 |} in
    (inr (), {| db := s; res := Some {| status := 200; body := TokenBody t |};
                signed := [t] |}).
Proof.
  intros He Hc Hu Hm. unfold login, validate_login. rewrite He. simpl.
  unfold try_catch, mbind, M_bind.
  rewrite User_findOne_run by exact Hc. simpl. rewrite Hu. simpl.
  unfold mret, M_ret. rewrite Hm. reflexivity.
Qed.

(** On a wrong secret the handler writes the 400 answer and goes on: the
    token is signed, and the callback's write on the response already sent
    throws outside the [try]. *)
Lemma login_mismatch (s : Store) (email pw : string) (k : nat) (u : User) :
  isEmail email = true →
  connected s = true →
  list_find (λ u, user_email u = email) (users s) = Some (k, u) →
  bcrypt_compare pw (user_password u) = false →
  login isEmail bcrypt_compare email (Some pw) (fresh s)
  = (inl HeadersSent,
     {| db := s;
        res := Some {| status := 400; body := Errors ["Invalid credential"] |};
        signed := [ {| token_user := user_id u; token_expiresIn := 36000 |} ] |}).
Proof.
  intros He Hc Hu Hm. unfold login, validate_login. rewrite He. simpl.
  unfold try_catch, mbind, M_bind.
  rewrite User_findOne_run by exact Hc. simpl. rewrite Hu. simpl.
  unfold mret, M_ret. rewrite Hm. reflexivity.
Qed.

End Auth.

(** ** The handlers on the demo store *)

Example demo_scenario_likes :
  response (like Demo.castable Demo.pid Demo.u1) Demo.store0
    = Some {| status := 200; body := LikeList [ {| like_user := Demo.u1 |} ] |} ∧
  DuplicateAction (response (like Demo.castable Demo.pid Demo.u1) Demo.store_liked) ∧
  response (unlike Demo.castable Demo.pid Demo.u1) Demo.store_liked
    = Some {| status := 200; body := LikeList [] |}.
Proof. repeat split; vm_compute; reflexivity. Qed.

Example demo_stores :
  posts Demo.store_liked !! Demo.pid = Some Demo.P_liked ∧
  posts Demo.store_commented !! Demo.pid = Some Demo.P_commented ∧
  posts Demo.store_commented_twice !! Demo.pid = Some Demo.P_commented_twice.
Proof. repeat split; vm_compute; reflexivity. Qed.

Example demo_login_ok :
  Demo.login "u1@x.com" (Some "secret1") (fresh Demo.store0)
  = let t := {| token_user := Demo.u1; token_expiresIn := 36000 |} in
    (inr (), {| db := Demo.store0;
                res := Some {| status := 200; body := TokenBody t |};
                signed := [t] |}).
Proof. vm_compute. reflexivity. Qed.

Example demo_login_unknown :
  InvalidCredential (response (Demo.login "nobody@x.com" (Some "secret1")) Demo.store0) ∧
  issued (Demo.login "nobody@x.com" (Some "secret1")) Demo.store0 = [].
Proof. split; vm_compute; reflexivity. Qed.

(** The comment id names the older comment of U2, the newer one goes. *)
Example removeComment_drops_newer_comment :
  response (removeComment Demo.castable Demo.pid Demo.cid Demo.u2)
           Demo.store_commented_twice
  = Some {| status := 200; body := CommentList [Demo.hi] |}.
Proof. vm_compute. reflexivity. Qed.

(** C1: a login with the email of a stored user and a wrong secret. The
    400 "Invalid credential" answer goes out, but the handler does not
    stop there: a token bound to the user is signed all the same, and the
    write of that token on the response already sent throws. *)
Theorem login_wrong_secret_signs_token :
  InvalidCredential (response (Demo.login "u1@x.com" (Some "wrong")) Demo.store0) ∧
  issued (Demo.login "u1@x.com" (Some "wrong")) Demo.store0
    = [ {| token_user := Demo.u1; token_expiresIn := 36000 |} ] ∧
  uncaught (Demo.login "u1@x.com" (Some "wrong")) Demo.store0 = Some HeadersSent.
Proof.
  unfold InvalidCredential, response, issued, uncaught, serve, Demo.login.
  rewrite (login_mismatch Demo.isEmail Demo.bcrypt_compare Demo.store0
             "u1@x.com" "wrong" 0 Demo.U1);
    [done | vm_compute; reflexivity ..].
Qed.

(** C3: a like request on a well-formed id that no post is stored under is
    answered with 500 "Server error!", not with 404. *)
Theorem like_absent_post_is_500 :
  posts Demo.store0 !! Demo.absent_pid = None ∧
  response (like Demo.castable Demo.absent_pid Demo.u2) Demo.store0
    = Some {| status := 500; body := Text "Server error!" |} ∧
  ¬ NotFound (response (like Demo.castable Demo.absent_pid Demo.u2) Demo.store0).
Proof.
  assert (lookup_post Demo.castable Demo.store0 Demo.absent_pid = inr None)
    as H by (vm_compute; reflexivity).
  unfold NotFound. rewrite (like_absent _ _ _ Demo.u2 H).
  split; [vm_compute; reflexivity | split; [reflexivity | discriminate]].
Qed.

(** C2, as stated, fails on the scenario of the specification: on the post
    of U1 that U2 commented, the request of U1, the post's author, is
    answered with Forbidden, and the request of U2 is not. *)
Lemma removeComment_post_author_counterexample :
  lookup_post Demo.castable Demo.store_commented Demo.pid
    = inr (Some Demo.P_commented) ∧
  ¬ (Forbidden (response (removeComment Demo.castable Demo.pid Demo.cid Demo.u1)
                         Demo.store_commented)
     ↔ Demo.u1 ≠ post_user Demo.P_commented) ∧
  ¬ (Forbidden (response (removeComment Demo.castable Demo.pid Demo.cid Demo.u2)
                         Demo.store_commented)
     ↔ Demo.u2 ≠ post_user Demo.P_commented).
Proof.
  split; [vm_compute; reflexivity|]. split.
  - intros [H _]. apply H; [vm_compute; reflexivity | reflexivity].
  - intros [_ H].
    assert (Forbidden (response (removeComment Demo.castable Demo.pid Demo.cid
                                   Demo.u2) Demo.store_commented)) as F.
    { apply H. intros E. vm_compute in E. discriminate E. }
    vm_compute in F. discriminate F.
Qed.

(** ** The theorems at the demo store *)

Lemma removeComment_forbidden_iff_witness :
  lookup_post Demo.castable Demo.store_commented Demo.pid
    = inr (Some Demo.P_commented) ∧
  find_comment Demo.cid (comments Demo.P_commented) = Some Demo.hi ∧
  Forbidden (response (removeComment Demo.castable Demo.pid Demo.cid Demo.u1)
                      Demo.store_commented) ∧
  Succeeded (response (removeComment Demo.castable Demo.pid Demo.cid Demo.u2)
                      Demo.store_commented).
Proof.
  assert (lookup_post Demo.castable Demo.store_commented Demo.pid
          = inr (Some Demo.P_commented)) as Hp by (vm_compute; reflexivity).
  assert (find_comment Demo.cid (comments Demo.P_commented) = Some Demo.hi)
    as Hc by (vm_compute; reflexivity).
  split; [exact Hp|]. split; [exact Hc|]. split.
  - apply (removeComment_forbidden_iff Demo.castable _ _ _ Demo.u1 _ _ Hp Hc).
    intros E. vm_compute in E. discriminate E.
  - apply (removeComment_forbidden_iff Demo.castable _ _ _ Demo.u2 _ _ Hp Hc).
    reflexivity.
Defined.

Lemma removeComment_removes_first_of_user_witness :
  posts Demo.store_commented_twice !! Demo.pid = Some Demo.P_commented_twice ∧
  Succeeded (response (removeComment Demo.castable Demo.pid Demo.cid Demo.u2)
                      Demo.store_commented_twice) ∧
  ∃ (before : list Comment) (c : Comment) (after : list Comment),
    comments Demo.P_commented_twice = (before ++ c :: after)%list ∧
    comment_user c = Demo.u2 ∧
    (∀ c', c' ∈ before → comment_user c' ≠ Demo.u2) ∧
    response (removeComment Demo.castable Demo.pid Demo.cid Demo.u2)
             Demo.store_commented_twice
      = Some {| status := 200; body := CommentList (before ++ after)%list |} ∧
    posts (store_after (removeComment Demo.castable Demo.pid Demo.cid Demo.u2)
                       Demo.store_commented_twice) !! Demo.pid
      = Some (set_comments (before ++ after)%list Demo.P_commented_twice).
Proof.
  assert (posts Demo.store_commented_twice !! Demo.pid
          = Some Demo.P_commented_twice) as Hp by (vm_compute; reflexivity).
  assert (Succeeded (response (removeComment Demo.castable Demo.pid Demo.cid
                                 Demo.u2) Demo.store_commented_twice))
    as Hok by (vm_compute; reflexivity).
  split; [exact Hp|]. split; [exact Hok|].
  exact (removeComment_removes_first_of_user Demo.castable _ _ _ _ _ Hp Hok).
Defined.

Lemma like_again_is_duplicate_witness :
  lookup_post Demo.castable Demo.store_liked Demo.pid = inr (Some Demo.P_liked) ∧
  Demo.u1 ∈ like_user <$> likes Demo.P_liked ∧
  DuplicateAction (response (like Demo.castable Demo.pid Demo.u1) Demo.store_liked) ∧
  store_after (like Demo.castable Demo.pid Demo.u1) Demo.store_liked
    = Demo.store_liked ∧
  likes <$> posts (store_after (like Demo.castable Demo.pid Demo.u1)
                               Demo.store_liked) !! Demo.pid
    = Some (likes Demo.P_liked).
Proof.
  assert (lookup_post Demo.castable Demo.store_liked Demo.pid
          = inr (Some Demo.P_liked)) as Hp by (vm_compute; reflexivity).
  assert (Demo.u1 ∈ like_user <$> likes Demo.P_liked) as Hin
    by (simpl; apply list_elem_of_here).
  split; [exact Hp|]. split; [exact Hin|].
  exact (like_again_is_duplicate Demo.castable _ _ _ _ Hp Hin).
Defined.

Lemma unlike_after_like_restores_witness :
  lookup_post Demo.castable Demo.store0 Demo.pid = inr (Some Demo.P) ∧
  (Demo.u2 ∉ like_user <$> likes Demo.P) ∧
  response (like Demo.castable Demo.pid Demo.u2) Demo.store0
    = Some {| status := 200;
              body := LikeList ({| like_user := Demo.u2 |} :: likes Demo.P) |} ∧
  response (unlike Demo.castable Demo.pid Demo.u2)
           (store_after (like Demo.castable Demo.pid Demo.u2) Demo.store0)
    = Some {| status := 200; body := LikeList (likes Demo.P) |} ∧
  store_after (unlike Demo.castable Demo.pid Demo.u2)
              (store_after (like Demo.castable Demo.pid Demo.u2) Demo.store0)
    = Demo.store0.
Proof.
  assert (lookup_post Demo.castable Demo.store0 Demo.pid = inr (Some Demo.P))
    as Hp by (vm_compute; reflexivity).
  assert (Demo.u2 ∉ like_user <$> likes Demo.P) as Hnew
    by (simpl; apply not_elem_of_nil).
  split; [exact Hp|]. split; [exact Hnew|].
  exact (unlike_after_like_restores Demo.castable _ _ _ _ Hp Hnew).
Defined.

Lemma deleteById_ownership_witness :
  lookup_post Demo.castable Demo.store0 Demo.pid = inr (Some Demo.P) ∧
  (Forbidden (response (deleteById Demo.castable Demo.pid Demo.u2) Demo.store0) ∧
   store_after (deleteById Demo.castable Demo.pid Demo.u2) Demo.store0
     = Demo.store0 ∧
   response (getById Demo.castable Demo.pid)
            (store_after (deleteById Demo.castable Demo.pid Demo.u2) Demo.store0)
     = Some {| status := 200; body := PostDoc Demo.P |}) ∧
  (response (deleteById Demo.castable Demo.pid Demo.u1) Demo.store0
     = Some {| status := 200; body := Msg "Post removed." |} ∧
   posts (store_after (deleteById Demo.castable Demo.pid Demo.u1) Demo.store0)
     !! Demo.pid = None ∧
   NotFound (response (getById Demo.castable Demo.pid)
               (store_after (deleteById Demo.castable Demo.pid Demo.u1)
                            Demo.store0))).
Proof.
  assert (lookup_post Demo.castable Demo.store0 Demo.pid = inr (Some Demo.P))
    as Hp by (vm_compute; reflexivity).
  split; [exact Hp|]. split.
  - apply (deleteById_ownership Demo.castable _ _ Demo.u2 _ Hp).
    intros E. vm_compute in E. discriminate E.
  - apply (deleteById_ownership Demo.castable _ _ Demo.u1 _ Hp). reflexivity.
Defined.

Lemma likes_stay_unique_witness :
  let ops := [OpLike Demo.pid Demo.u1; OpLike Demo.pid Demo.u2;
              OpLike Demo.pid Demo.u1; OpUnlike Demo.pid Demo.u1;
              OpUnlike Demo.absent_pid Demo.u1; OpLike Demo.pid Demo.u1] in
  let p := set_likes [ {| like_user := Demo.u1 |}; {| like_user := Demo.u2 |} ]
                     Demo.P in
  posts Demo.store0 !! Demo.pid = Some Demo.P ∧
  one_like_per_user Demo.P ∧
  posts (run_ops Demo.castable ops Demo.store0) !! Demo.pid = Some p ∧
  one_like_per_user p.
Proof.
  intros ops p.
  assert (posts Demo.store0 !! Demo.pid = Some Demo.P) as H0
    by (vm_compute; reflexivity).
  assert (one_like_per_user Demo.P) as Hinv by apply NoDup_nil_2.
  assert (posts (run_ops Demo.castable ops Demo.store0) !! Demo.pid = Some p)
    as Hp by (vm_compute; reflexivity).
  split; [exact H0|]. split; [exact Hinv|]. split; [exact Hp|].
  exact (likes_stay_unique Demo.castable ops _ _ _ _ H0 Hinv Hp).
Defined.

Lemma malformed_post_id_witness :
  Demo.castable "not-an-id" = false ∧
  "hi" ≠ "" ∧
  lookup_post Demo.castable Demo.store0 Demo.absent_pid = inr None ∧
  (NotFound (response (getById Demo.castable "not-an-id") Demo.store0) ∧
   NotFound (response (deleteById Demo.castable "not-an-id" Demo.u1) Demo.store0)) ∧
  (NotFound (response (getById Demo.castable Demo.absent_pid) Demo.store0) ∧
   NotFound (response (deleteById Demo.castable Demo.absent_pid Demo.u1)
                      Demo.store0)) ∧
  (StoreUnavailable (response (like Demo.castable "not-an-id" Demo.u1) Demo.store0) ∧
   StoreUnavailable (response (unlike Demo.castable "not-an-id" Demo.u1) Demo.store0) ∧
   StoreUnavailable (response (addComment Demo.castable "not-an-id" Demo.u1 "hi"
                                          Demo.cid) Demo.store0) ∧
   StoreUnavailable (response (removeComment Demo.castable "not-an-id" Demo.cid
                                             Demo.u1) Demo.store0)).
Proof.
  assert (Demo.castable "not-an-id" = false) as Hbad by reflexivity.
  assert ("hi" ≠ "") as Htext by discriminate.
  assert (lookup_post Demo.castable Demo.store0 Demo.absent_pid = inr None)
    as Habs by (vm_compute; reflexivity).
  split; [exact Hbad|]. split; [exact Htext|]. split; [exact Habs|].
  destruct (malformed_post_id Demo.castable Demo.store0 "not-an-id"
              Demo.absent_pid Demo.u1 Demo.cid "hi" Demo.cid Hbad Htext)
    as (Hmal & Habsent & Hrest).
  split; [exact Hmal|]. split; [exact (Habsent Habs) | exact Hrest].
Defined.

Lemma addComment_absent_post_witness :
  Demo.castable Demo.absent_pid = true ∧
  posts Demo.store0 !! Demo.absent_pid = None ∧
  "hi" ≠ "" ∧
  response (addComment Demo.castable Demo.absent_pid Demo.u2 "hi" Demo.cid)
           Demo.store0
    = Some {| status := 500; body := Text "Server Error!" |} ∧
  ¬ NotFound (response (addComment Demo.castable Demo.absent_pid Demo.u2 "hi"
                                   Demo.cid) Demo.store0) ∧
  store_after (addComment Demo.castable Demo.absent_pid Demo.u2 "hi" Demo.cid)
              Demo.store0 = Demo.store0.
Proof.
  assert (Demo.castable Demo.absent_pid = true) as Hc by reflexivity.
  assert (posts Demo.store0 !! Demo.absent_pid = None) as Hnone
    by (vm_compute; reflexivity).
  assert ("hi" ≠ "") as Htext by discriminate.
  split; [exact Hc|]. split; [exact Hnone|]. split; [exact Htext|].
  exact (addComment_absent_post Demo.castable _ _ Demo.u2 _ Demo.cid
           Hc Hnone Htext).
Defined.

(** * Beyond the single handlers *)

(** ** Every request of routes/api/posts.js *)

Section Routes.

Variable castable : string → bool.

Ltac unfold_handlers :=
  unfold route, createPost, getById, deleteById, like, unlike, addComment,
    removeComment, validate_text, fresh, try_catch, Post_findById, Post_save,
    Post_remove, User_findById, deref, respond, get_db, put_db,
    mbind, M_bind, mret, M_ret, mthrow, M_throw.

Ltac split_scrutinee :=
  match goal with
  | |- context [match (if ?b then _ else _) with _ => _ end] =>
      destruct b eqn:?
  | |- context [(if ?b then _ else _) _] => destruct b eqn:?
  | |- context [match ?o with Some _ => _ | None => _ end] =>
      destruct o eqn:?
  | |- context [if ?b then _ else _] => destruct b eqn:?
  end.

(** No exception leaves a handler of posts.js. *)
Lemma route_catches_all (r : Request) (s : Store) :
  fst (route castable r (fresh s)) = inr ().
Proof.
  destruct r; unfold_handlers; simpl;
    repeat (first [reflexivity | split_scrutinee; simpl]).
Qed.

(** What one request does to the world, whatever the request and the
    store: one answer, and a store that differs from the old one at most in
    the post the request is about, and only when the answer is 200. *)
Lemma route_effect (r : Request) (s : Store) :
  ∃ (code : Z) (b : Body) (s' : Store),
    serve (route castable r) s = replied s' code b ∧
    code ∈ status_of_posts_js ∧
    (code ≠ 200 → s' = s) ∧
    users s' = users s ∧
    connected s' = connected s ∧
    ∀ k, k ≠ target r → posts s' !! k = posts s !! k.
Proof.
  unfold serve, replied, status_of_posts_js.
  destruct r; unfold_handlers; simpl;
    repeat (split_scrutinee; simpl);
    (eexists _, _, _; split; [reflexivity|]);
    (split; [repeat constructor|]);
    (split; [try done|]);
    (split; [reflexivity|]); (split; [reflexivity|]);
    intros k Hk; simpl;
    first [ reflexivity
          | rewrite lookup_insert_ne by (intros E; apply Hk; symmetry; exact E);
            reflexivity
          | rewrite lookup_delete_ne by (intros E; apply Hk; symmetry; exact E);
            reflexivity ].
Qed.

(** X1: whatever the request and the store, a handler of posts.js writes exactly
    one answer, with one of the five status codes of the file, lets no
    exception out and signs no token. *)
Theorem posts_js_always_answers (r : Request) (s : Store) :
  uncaught (route castable r) s = None ∧
  issued (route castable r) s = [] ∧
  ∃ resp, response (route castable r) s = Some resp ∧
          status resp ∈ status_of_posts_js.
Proof.
  unfold uncaught, issued, response. rewrite route_catches_all.
  destruct (route_effect r s) as (code & b & s' & -> & Hcode & _).
  simpl. repeat split. eexists. split; [reflexivity | exact Hcode].
Qed.

(** X2: a request changes nothing but the post it is about: every other post,
    the users and the connection are as before. *)
Theorem posts_js_touches_one_post (r : Request) (s : Store) (k : string) :
  k ≠ target r →
  posts (store_after (route castable r) s) !! k = posts s !! k ∧
  users (store_after (route castable r) s) = users s ∧
  connected (store_after (route castable r) s) = connected s.
Proof.
  intros Hk. unfold store_after.
  destruct (route_effect r s) as (code & b & s' & -> & _ & _ & Hu & Hc & Hf).
  simpl. auto.
Qed.

(** X3: a request that is not answered with 200 leaves the store as it was. *)
Theorem posts_js_failure_keeps_store (r : Request) (s : Store) :
  ¬ Succeeded (response (route castable r) s) →
  store_after (route castable r) s = s.
Proof.
  unfold Succeeded, response, store_after.
  destruct (route_effect r s) as (code & b & s' & -> & _ & Hkeep & _).
  simpl. intros Hno. apply Hkeep. intros ->. apply Hno. reflexivity.
Qed.

(** X5: without a connection every request with a well-formed post id (and a
    text, where one is asked for) is answered with 500. *)
Theorem store_down_is_500 (s : Store) (id user cid text new_id : string) :
  connected s = false →
  castable id = true →
  text ≠ "" →
  StoreUnavailable (response (createPost castable user text new_id) s) ∧
  StoreUnavailable (response (getById castable id) s) ∧
  StoreUnavailable (response (deleteById castable id user) s) ∧
  StoreUnavailable (response (like castable id user) s) ∧
  StoreUnavailable (response (unlike castable id user) s) ∧
  StoreUnavailable (response (addComment castable id user text new_id) s) ∧
  StoreUnavailable (response (removeComment castable id cid user) s).
Proof.
  intros Hdown Hid Htext. unfold StoreUnavailable, response, serve.
  unfold_handlers. rewrite (bool_decide_eq_false_2 (text = "")) by exact Htext.
  repeat split; simpl;
    repeat (first [ reflexivity
                  | progress (rewrite ?Hid, ?Hdown; simpl)
                  | split_scrutinee; simpl ]).
Qed.

(** X4: no request other than a create changes the author, the text, the name or
    the avatar of a stored post; like and unlike leave its comments alone,
    the comment requests its likes, and the others the whole post. *)
Theorem stored_post_keeps_author (r : Request) (s : Store) (p p' : Post) :
  (∀ user text new_id, r ≠ CreatePost user text new_id) →
  posts s !! target r = Some p →
  posts (store_after (route castable r) s) !! target r = Some p' →
  post_user p' = post_user p ∧ post_text p' = post_text p ∧
  post_name p' = post_name p ∧ post_avatar p' = post_avatar p ∧
  match r with
  | LikePost _ _ | UnlikePost _ _ => comments p' = comments p
  | AddComment _ _ _ _ | RemoveComment _ _ _ => likes p' = likes p
  | _ => p' = p
  end.
Proof.
  intros Hnc Hp. unfold store_after, serve.
  destruct r; [destruct (Hnc _ _ _ eq_refl)|..]; simpl in Hp;
    unfold_handlers; simpl;
    repeat (first [rewrite Hp | split_scrutinee]; simpl);
    rewrite ?lookup_insert_eq, ?lookup_delete_eq; intros Hp';
    simplify_eq; done.
Qed.

End Routes.

(** ** First occurrences *)

Section FirstOccurrence.

Context {A : Type} (f : A → string).

(** A list with an element of key [v] splits at the first such element. *)
Lemma first_occurrence (v : string) (l : list A) :
  v ∈ f <$> l →
  ∃ (before : list A) (c : A) (after : list A),
    l = (before ++ c :: after)%list ∧ f c = v ∧
    ∀ x, x ∈ before → f x ≠ v.
Proof.
  induction l as [|x l IH]; simpl.
  - intros H. apply elem_of_nil in H. destruct H.
  - intros H. destruct (decide (f x = v)) as [E|E].
    + exists [], x, l. repeat split; [exact E|].
      intros y Hy. apply elem_of_nil in Hy. destruct Hy.
    + apply elem_of_cons in H as [H|H]; [congruence|].
      destruct (IH H) as (before & c & after & -> & Hc & Hb).
      exists (x :: before), c, after. repeat split; [exact Hc|].
      intros y Hy. apply elem_of_cons in Hy as [->|Hy]; [exact E | auto].
Qed.

(** [indexOf] points at the split, and [splice] cuts the element out. *)
Lemma indexOf_split (v : string) (before : list A) (c : A) (after : list A) :
  f c = v →
  (∀ x, x ∈ before → f x ≠ v) →
  indexOf v (f <$> (before ++ c :: after)%list) = Z.of_nat (length before).
Proof.
  intros Hc Hb. unfold indexOf.
  assert (list_find (λ x, x = v) (f <$> (before ++ c :: after)%list)
          = Some (length before, v)) as ->; [|reflexivity].
  apply list_find_Some. split; [|split; [reflexivity|]].
  - rewrite list_lookup_fmap, list_lookup_middle by reflexivity.
    simpl. rewrite Hc. reflexivity.
  - intros j y Hj Hlt. rewrite list_lookup_fmap in Hj.
    rewrite lookup_app_l in Hj by exact Hlt.
    destruct (before !! j) as [x|] eqn:Hx; simpl in Hj; [|discriminate].
    injection Hj as <-. apply Hb. apply list_elem_of_lookup. eauto.
Qed.

Lemma splice_split (v : string) (before : list A) (c : A) (after : list A) :
  f c = v →
  (∀ x, x ∈ before → f x ≠ v) →
  splice1 (indexOf v (f <$> (before ++ c :: after)%list))
          (before ++ c :: after)%list
  = (before ++ after)%list.
Proof.
  intros Hc Hb. rewrite indexOf_split by assumption.
  rewrite splice1_at by (rewrite length_app; simpl; lia).
  apply delete_middle.
Qed.

(** With unique keys nothing of key [v] is left once the first is gone. *)
Lemma unique_key_gone (v : string) (before : list A) (c : A) (after : list A) :
  f c = v →
  NoDup (f <$> (before ++ c :: after)%list) →
  v ∉ f <$> (before ++ after)%list.
Proof.
  intros Hc. rewrite !fmap_app, fmap_cons, Hc.
  intros (_ & Hdisj & Hnd)%NoDup_app.
  apply NoDup_cons in Hnd as (Hafter & _).
  intros [Hin|Hin]%elem_of_app; [|done].
  apply (Hdisj v Hin). apply list_elem_of_here.
Qed.

(** Looking for a key skips an element of another key. *)
Lemma list_find_skip (v : string) (before : list A) (c : A) (after : list A) :
  f c ≠ v →
  snd <$> list_find (λ x, f x = v) (before ++ c :: after)%list
  = snd <$> list_find (λ x, f x = v) (before ++ after)%list.
Proof.
  intros Hc. induction before as [|x before IH]; simpl.
  - rewrite decide_False by exact Hc.
    destruct (list_find _ after) as [[? ?]|]; reflexivity.
  - destruct (decide (f x = v)); [reflexivity|].
    destruct (list_find _ (before ++ c :: after)%list) as [[? ?]|],
             (list_find _ (before ++ after)%list) as [[? ?]|];
      simpl in *; congruence.
Qed.

End FirstOccurrence.

(** ** Unlike *)

Section MoreLikes.

Variable castable : string → bool.

(** X6: an unlike request of an identity that has no like on the post is
    answered with 400 "You dind't lik it before." and the store is left as
    it was. *)
Theorem unlike_without_like (s : Store) (id user : string) (p : Post) :
  lookup_post castable s id = inr (Some p) →
  user ∉ like_user <$> likes p →
  response (unlike castable id user) s
    = Some {| status := 400; body := Msg "You dind't lik it before." |} ∧
  store_after (unlike castable id user) s = s.
Proof.
  intros Hp Hno. unfold response, store_after. rewrite serve_unlike, Hp.
  apply likes_by_zero in Hno. rewrite Hno. done.
Qed.

(** X7: an unlike request of an identity that has a like on the post takes the
    first like of that identity out of the sequence and leaves the other
    likes in their order; on a post with at most one like per user, the
    identity then has no like left. *)
Theorem unlike_removes_first_like (s : Store) (id user : string) (p : Post) :
  lookup_post castable s id = inr (Some p) →
  user ∈ like_user <$> likes p →
  ∃ (before after : list Like),
    likes p = (before ++ {| like_user := user |} :: after)%list ∧
    (∀ l, l ∈ before → like_user l ≠ user) ∧
    response (unlike castable id user) s
      = Some {| status := 200; body := LikeList (before ++ after)%list |} ∧
    posts (store_after (unlike castable id user) s) !! id
      = Some (set_likes (before ++ after)%list p) ∧
    (one_like_per_user p → user ∉ like_user <$> (before ++ after)%list).
Proof.
  intros Hp Hin.
  destruct (first_occurrence like_user user (likes p) Hin)
    as (before & [u] & after & Hsplit & Hu & Hbefore).
  simpl in Hu. subst u. exists before, after.
  unfold response, store_after. rewrite serve_unlike, Hp.
  assert ((likes_by user (likes p) =? 0) = false) as ->.
  { apply Z.eqb_neq. intros Hz. apply likes_by_zero in Hz. done. }
  unfold one_like_per_user. rewrite Hsplit.
  rewrite (splice_split like_user user) by done. simpl.
  rewrite lookup_insert_eq. repeat split; try done.
  apply (unique_key_gone like_user). reflexivity.
Qed.

End MoreLikes.

(** ** Comments *)

Section MoreComments.

Variable castable : string → bool.

Lemma find_comment_None (cid : string) (cs : list Comment) :
  cid ∉ comment_id <$> cs → find_comment cid cs = None.
Proof.
  intros Hno. unfold find_comment.
  destruct (list_find _ cs) as [[i c]|] eqn:E; [|reflexivity].
  apply list_find_Some in E as (Hi & Hid & _). destruct Hno.
  apply list_elem_of_fmap. exists c. split; [done|].
  apply list_elem_of_lookup. eauto.
Qed.

Lemma stored_after_save (s : Store) (id : string) (p q : Post) :
  lookup_post castable s id = inr (Some p) →
  lookup_post castable (set_posts (<[id:=q]> (posts s)) s) id = inr (Some q).
Proof.
  intros (Hc & Hon & _)%lookup_post_Some. apply lookup_post_Some. simpl.
  rewrite lookup_insert_eq. done.
Qed.

Lemma serve_addComment_no_text (s : Store) (id user new_id : string) :
  serve (addComment castable id user "" new_id) s
  = replied s 400 (Errors ["Text is required."]).
Proof. reflexivity. Qed.

(** X8: a comment request is answered with 200 exactly when it has a text, the
    identity is a stored user and the post is stored. *)
Theorem addComment_succeeds_iff (s : Store) (id user text new_id : string) :
  Succeeded (response (addComment castable id user text new_id) s) ↔
  text ≠ "" ∧
  (∃ u, lookup_user castable s user = inr (Some u)) ∧
  (∃ p, lookup_post castable s id = inr (Some p)).
Proof.
  unfold Succeeded, response. destruct (decide (text = "")) as [->|Htext].
  - rewrite serve_addComment_no_text. simpl. split; [discriminate|].
    intros (H & _). destruct H. reflexivity.
  - rewrite (serve_addComment _ _ _ _ _ _ Htext).
    destruct (lookup_user castable s user) as [e|[u|]];
      destruct (lookup_post castable s id) as [e'|[p|]]; simpl;
      (split; [try discriminate; eauto
              | intros (_ & (u' & Hu) & (p' & Hp)); try discriminate;
                reflexivity]).
Qed.

(** X10: a comment of a stored user with a text on a stored post goes to the
    front of the comment sequence with the user's name and avatar; the
    older comments and the likes stay, and getById then serves the post with
    the new comment, which is the one found under the new id. *)
Theorem addComment_prepends
    (s : Store) (id user text new_id : string) (u : User) (p : Post) :
  lookup_user castable s user = inr (Some u) →
  lookup_post castable s id = inr (Some p) →
  text ≠ "" →
  let c := {| comment_id := new_id; comment_text := text;
              comment_name := user_name u; comment_avatar := user_avatar u;
              comment_user := user |} in
  let p' := set_comments (c :: comments p) p in
  response (addComment castable id user text new_id) s
    = Some {| status := 200; body := PostDoc p' |} ∧
  response (getById castable id)
           (store_after (addComment castable id user text new_id) s)
    = Some {| status := 200; body := PostDoc p' |} ∧
  likes p' = likes p ∧
  find_comment new_id (comments p') = Some c.
Proof.
  intros Hu Hp Htext c p'. unfold response, store_after.
  rewrite (serve_addComment _ _ _ _ _ _ Htext), Hu, Hp. simpl.
  rewrite serve_getById, (stored_after_save _ _ _ _ Hp).
  repeat split. unfold find_comment. simpl.
  rewrite decide_True by reflexivity. reflexivity.
Qed.

(** X11: removing, as its writer and under its id, the comment that was just
    added puts the store back as it was before the comment. *)
Theorem addComment_removeComment_roundtrip
    (s : Store) (id user text new_id : string) (u : User) (p : Post) :
  lookup_user castable s user = inr (Some u) →
  lookup_post castable s id = inr (Some p) →
  text ≠ "" →
  response (removeComment castable id new_id user)
           (store_after (addComment castable id user text new_id) s)
    = Some {| status := 200; body := CommentList (comments p) |} ∧
  store_after (removeComment castable id new_id user)
              (store_after (addComment castable id user text new_id) s)
    = s.
Proof.
  intros Hu Hp Htext. unfold response, store_after.
  rewrite (serve_addComment _ _ _ _ _ _ Htext), Hu, Hp. simpl.
  rewrite serve_removeComment, (stored_after_save _ _ _ _ Hp).
  unfold find_comment. simpl. rewrite decide_True by reflexivity. simpl.
  rewrite bool_decide_eq_false_2 by (intros H; apply H; reflexivity).
  rewrite indexOf_head. simpl. split; [reflexivity|].
  unfold set_posts at 1. simpl. rewrite insert_insert_eq.
  apply lookup_post_Some in Hp as (_ & _ & Hp).
  replace (set_comments (comments p) _) with p by (destruct p; reflexivity).
  rewrite insert_id by exact Hp. destruct s; reflexivity.
Qed.

(** X9: a comment request is answered with 400 exactly when its text is empty;
    the answer is then "Text is required." whatever the ids and the state
    of the store, which is not touched. *)
Theorem addComment_text_required (s : Store) (id user text new_id : string) :
  (status <$> response (addComment castable id user text new_id) s = Some 400
     ↔ text = "") ∧
  response (addComment castable id user "" new_id) s
    = Some {| status := 400; body := Errors ["Text is required."] |} ∧
  store_after (addComment castable id user "" new_id) s = s.
Proof.
  split; [|split; reflexivity]. unfold response.
  destruct (decide (text = "")) as [->|Htext]; [done|].
  rewrite (serve_addComment _ _ _ _ _ _ Htext).
  destruct (lookup_user castable s user) as [e|[u|]];
    destruct (lookup_post castable s id) as [e'|[p|]]; simpl;
    (split; [discriminate | intros ->; destruct Htext; reflexivity]).
Qed.

(** X12: a remove-comment request with an id none of the post's comments has is
    answered with 404 "Comment does not exist !" and changes nothing. *)
Theorem removeComment_unknown_comment
    (s : Store) (id cid user : string) (p : Post) :
  lookup_post castable s id = inr (Some p) →
  cid ∉ comment_id <$> comments p →
  response (removeComment castable id cid user) s
    = Some {| status := 404; body := Msg "Comment does not exist !" |} ∧
  store_after (removeComment castable id cid user) s = s.
Proof.
  intros Hp Hno. unfold response, store_after.
  rewrite serve_removeComment, Hp, (find_comment_None _ _ Hno). done.
Qed.

(** X13: when the identity wrote a comment that sits before the one the request
    names, the request is served but it is that earlier comment that goes:
    the comment named by the id is still there afterwards. *)
Theorem removeComment_spares_target
    (s : Store) (id cid user : string) (p : Post)
    (before : list Comment) (c0 : Comment) (after : list Comment) (c : Comment) :
  lookup_post castable s id = inr (Some p) →
  comments p = (before ++ c0 :: after)%list →
  comment_user c0 = user →
  (∀ x, x ∈ before → comment_user x ≠ user) →
  comment_id c0 ≠ cid →
  find_comment cid (comments p) = Some c →
  comment_user c = user →
  response (removeComment castable id cid user) s
    = Some {| status := 200; body := CommentList (before ++ after)%list |} ∧
  posts (store_after (removeComment castable id cid user) s) !! id
    = Some (set_comments (before ++ after)%list p) ∧
  find_comment cid (before ++ after)%list = Some c.
Proof.
  intros Hp Hsplit H0 Hbefore Hid Hc Hcu. unfold response, store_after.
  rewrite serve_removeComment, Hp, Hc.
  rewrite bool_decide_eq_false_2 by (intros H; apply H; exact Hcu).
  rewrite Hsplit, (splice_split comment_user user) by assumption. simpl.
  rewrite lookup_insert_eq. repeat split.
  unfold find_comment in *. rewrite Hsplit in Hc.
  rewrite (list_find_skip comment_id cid) in Hc by exact Hid. exact Hc.
Qed.

(** X14: when the comment the request names is the first one its writer has on
    the post, and comment ids are unique, the request of the writer removes
    that comment: no comment is found under the id afterwards. *)
Theorem removeComment_removes_target
    (s : Store) (id cid user : string) (p : Post)
    (before : list Comment) (c : Comment) (after : list Comment) :
  lookup_post castable s id = inr (Some p) →
  comments p = (before ++ c :: after)%list →
  comment_id c = cid →
  comment_user c = user →
  (∀ x, x ∈ before → comment_user x ≠ user) →
  NoDup (comment_id <$> comments p) →
  response (removeComment castable id cid user) s
    = Some {| status := 200; body := CommentList (before ++ after)%list |} ∧
  posts (store_after (removeComment castable id cid user) s) !! id
    = Some (set_comments (before ++ after)%list p) ∧
  find_comment cid (before ++ after)%list = None.
Proof.
  intros Hp Hsplit Hid Hcu Hbefore Hnd. unfold response, store_after.
  rewrite Hsplit in Hnd.
  assert (find_comment cid (comments p) = Some c) as Hc.
  { unfold find_comment. rewrite Hsplit.
    assert (list_find (λ x, comment_id x = cid) (before ++ c :: after)%list
            = Some (length before, c)) as ->; [|reflexivity].
    apply list_find_Some. split; [|split; [exact Hid|]].
    - apply list_lookup_middle. reflexivity.
    - intros j y Hj Hlt Hy. rewrite lookup_app_l in Hj by exact Hlt.
      rewrite fmap_app, fmap_cons in Hnd.
      apply NoDup_app in Hnd as (_ & Hdisj & _).
      apply (Hdisj cid).
      + rewrite <- Hy. apply list_elem_of_fmap. exists y. split; [done|].
        apply list_elem_of_lookup. eauto.
      + rewrite Hid. apply list_elem_of_here. }
  rewrite serve_removeComment, Hp, Hc.
  rewrite bool_decide_eq_false_2 by (intros H; apply H; exact Hcu).
  rewrite Hsplit, (splice_split comment_user user) by assumption. simpl.
  rewrite lookup_insert_eq. repeat split.
  apply find_comment_None. apply (unique_key_gone comment_id cid _ c); done.
Qed.

End MoreComments.

(** ** Creating posts *)

Section Create.

Variable castable : string → bool.

Lemma serve_createPost (s : Store) (user text new_id : string) :
  text ≠ "" →
  serve (createPost castable user text new_id) s =
  match lookup_user castable s user with
  | inr (Some u) =>
      let p := new_Post text (user_name u) (user_avatar u) user in
      replied (set_posts (<[new_id := p]> (posts s)) s) 200 (PostDoc p)
  | _ => replied s 500 (Text "Server Error!")
  end.
Proof.
  intros Htext. unfold createPost, validate_text, lookup_user, serve.
  rewrite (bool_decide_eq_false_2 (text = "")) by exact Htext. simpl.
  unfold fresh, try_catch, User_findById, Post_save, deref, respond, get_db,
    put_db, replied, mbind, M_bind, mret, M_ret, mthrow, M_throw. simpl.
  destruct (castable user); simpl; [|reflexivity].
  destruct (connected s) eqn:Hc; simpl; [|reflexivity].
  destruct (list_find _ (users s)) as [[k u]|]; simpl; [|reflexivity].
  rewrite Hc. reflexivity.
Qed.

Lemma createPost_200 (s : Store) (user text new_id : string) :
  Succeeded (response (createPost castable user text new_id) s) →
  text ≠ "" ∧ ∃ u, lookup_user castable s user = inr (Some u).
Proof.
  unfold Succeeded, response. destruct (decide (text = "")) as [->|Htext].
  - simpl. discriminate.
  - rewrite (serve_createPost _ _ _ _ Htext).
    destruct (lookup_user castable s user) as [e|[u|]]; simpl;
      try discriminate; eauto.
Qed.


(** X16: a create request is answered with 400 exactly when its text is empty;
    the answer is then "Text is required." whatever the identity and the
    state of the store, which is not touched. *)
Theorem createPost_text_required (s : Store) (user text new_id : string) :
  (status <$> response (createPost castable user text new_id) s = Some 400
     ↔ text = "") ∧
  response (createPost castable user "" new_id) s
    = Some {| status := 400; body := Errors ["Text is required."] |} ∧
  store_after (createPost castable user "" new_id) s = s.
Proof.
  split; [|split; reflexivity]. unfold response.
  destruct (decide (text = "")) as [->|Htext]; [done|].
  rewrite (serve_createPost _ _ _ _ Htext).
  destruct (lookup_user castable s user) as [e|[u|]]; simpl;
    (split; [discriminate | intros ->; destruct Htext; reflexivity]).
Qed.

(** X17: the post a stored user creates carries the text, the user's id, name
    and avatar, no like and no comment; it is what the answer holds and
    what getById serves under the new id afterwards. *)
Theorem createPost_then_getById
    (s : Store) (user text new_id : string) (u : User) :
  lookup_user castable s user = inr (Some u) →
  castable new_id = true →
  text ≠ "" →
  let p := {| post_text := text; post_name := user_name u;
              post_avatar := user_avatar u; post_user := user;
              likes := []; comments := [] |} in
  response (createPost castable user text new_id) s
    = Some {| status := 200; body := PostDoc p |} ∧
  response (getById castable new_id)
           (store_after (createPost castable user text new_id) s)
    = Some {| status := 200; body := PostDoc p |}.
Proof.
  intros Hu Hid Htext p. unfold response, store_after.
  rewrite (serve_createPost _ _ _ _ Htext), Hu. simpl.
  split; [reflexivity|]. rewrite serve_getById.
  assert (connected s = true) as Hc.
  { unfold lookup_user in Hu. destruct (castable user); [|discriminate].
    destruct (connected s); [reflexivity | discriminate]. }
  unfold lookup_post. simpl. rewrite Hid, Hc. simpl.
  rewrite lookup_insert_eq. reflexivity.
Qed.

(** X18: deleting, as its author, a post that was just created under an unused
    id puts the store back as it was. *)
Theorem createPost_deleteById_roundtrip
    (s : Store) (user text new_id : string) (u : User) :
  lookup_user castable s user = inr (Some u) →
  castable new_id = true →
  posts s !! new_id = None →
  text ≠ "" →
  response (deleteById castable new_id user)
           (store_after (createPost castable user text new_id) s)
    = Some {| status := 200; body := Msg "Post removed." |} ∧
  store_after (deleteById castable new_id user)
              (store_after (createPost castable user text new_id) s)
    = s.
Proof.
  intros Hu Hid Hnew Htext. unfold response, store_after.
  rewrite (serve_createPost _ _ _ _ Htext), Hu. simpl.
  assert (connected s = true) as Hc.
  { unfold lookup_user in Hu. destruct (castable user); [|discriminate].
    destruct (connected s); [reflexivity | discriminate]. }
  rewrite serve_deleteById. unfold lookup_post. simpl. rewrite Hid, Hc. simpl.
  rewrite lookup_insert_eq. simpl.
  rewrite bool_decide_eq_false_2 by (intros H; apply H; reflexivity).
  simpl. split; [reflexivity|].
  unfold set_posts. simpl. rewrite delete_insert_eq, delete_id by exact Hnew.
  destruct s; reflexivity.
Qed.

(** X19: a post that was created, and then liked and unliked in any way by any
    users, has at most one like per user. *)
Theorem created_post_keeps_unique_likes
    (s : Store) (user text new_id : string) (ops : list Op) (p : Post) :
  Succeeded (response (createPost castable user text new_id) s) →
  posts (run_ops castable ops
           (store_after (createPost castable user text new_id) s)) !! new_id
    = Some p →
  one_like_per_user p.
Proof.
  intros Hok. apply run_ops_keeps_invariant. intros q.
  apply createPost_200 in Hok as (Htext & u & Hu).
  unfold store_after. rewrite (serve_createPost _ _ _ _ Htext), Hu. simpl.
  rewrite lookup_insert_eq. intros [= <-]. apply NoDup_nil_2.
Qed.

End Create.

(** ** Login, all cases *)

Section MoreAuth.

Variable isEmail : string → bool.
Variable bcrypt_compare : string → string → bool.

Ltac unfold_login :=
  unfold login, validate_login, compare, jwt_sign, User_findOne, fresh,
    try_catch, respond, get_db, mbind, M_bind, mret, M_ret, mthrow, M_throw.

Ltac split_login :=
  match goal with
  | |- context [isEmail ?e] => destruct (isEmail e) eqn:?
  | |- context [connected ?s] => destruct (connected s) eqn:?
  | |- context [list_find ?P ?l] => destruct (list_find P l) as [[? ?]|] eqn:?
  | |- context [bcrypt_compare ?a ?b] => destruct (bcrypt_compare a b) eqn:?
  end.

(** What a login request leaves: the store it found, one answer, and either
    no token or one token for the first stored user with the email. *)
Lemma login_world (s : Store) (email : string) (password : option string) :
  ∃ (out : Exn + unit) (code : Z) (b : Body) (toks : list Token),
    login isEmail bcrypt_compare email password (fresh s)
      = (out, {| db := s; res := Some {| status := code; body := b |};
                 signed := toks |}) ∧
    (toks = [] ∨
     ∃ k u, list_find (λ u, user_email u = email) (users s) = Some (k, u) ∧
            toks = [ {| token_user := user_id u; token_expiresIn := 36000 |} ]).
Proof.
  unfold_login. destruct password as [pw|]; simpl;
    repeat (split_login; simpl);
    (eexists _, _, _, _; split; [reflexivity|]); eauto.
Qed.

(** X20: a login request never writes to the store, always gets an answer, and
    signs at most one token. *)
Theorem login_never_writes (s : Store) (email : string)
    (password : option string) :
  store_after (login isEmail bcrypt_compare email password) s = s ∧
  is_Some (response (login isEmail bcrypt_compare email password) s) ∧
  (length (issued (login isEmail bcrypt_compare email password) s) ≤ 1)%nat.
Proof.
  unfold store_after, response, issued, serve.
  destruct (login_world s email password)
    as (out & code & b & toks & -> & [->|(k & u & _ & ->)]); simpl;
    repeat split; eauto.
Qed.

(** X21: every token a login request signs is bound to a stored user whose
    email is the one of the request, and expires after 36000. *)
Theorem login_tokens_for_stored_users (s : Store) (email : string)
    (password : option string) (t : Token) :
  t ∈ issued (login isEmail bcrypt_compare email password) s →
  ∃ u, u ∈ users s ∧ user_email u = email ∧
       t = {| token_user := user_id u; token_expiresIn := 36000 |}.
Proof.
  unfold issued, serve.
  destruct (login_world s email password)
    as (out & code & b & toks & -> & [->|(k & u & Hu & ->)]); simpl.
  - intros H. apply elem_of_nil in H. destruct H.
  - intros ->%list_elem_of_singleton.
    apply list_find_Some in Hu as (Hk & He & _).
    exists u. repeat split; [|exact He]. apply list_elem_of_lookup. eauto.
Qed.

(** X22: with the email of a stored user and the secret its hash matches, the
    answer is 200 with a token bound to the first such user, expiring after
    36000; it is the only token signed and nothing is thrown. *)
Theorem login_success (s : Store) (email pw : string) (k : nat) (u : User) :
  isEmail email = true →
  connected s = true →
  list_find (λ u, user_email u = email) (users s) = Some (k, u) →
  bcrypt_compare pw (user_password u) = true →
  let t := {| token_user := user_id u; token_expiresIn := 36000 |} in
  response (login isEmail bcrypt_compare email (Some pw)) s
    = Some {| status := 200; body := TokenBody t |} ∧
  issued (login isEmail bcrypt_compare email (Some pw)) s = [t] ∧
  uncaught (login isEmail bcrypt_compare email (Some pw)) s = None.
Proof.
  intros He Hc Hu Hm t. unfold response, issued, uncaught, serve.
  rewrite (login_match _ _ _ _ _ _ _ He Hc Hu Hm). done.
Qed.

(** X23: with an email no stored user has, the answer is the 400 "Invalid
    credential" a wrong secret gets; no token is signed and nothing is
    thrown. *)
Theorem login_unknown_email_rejected (s : Store) (email pw : string) :
  isEmail email = true →
  connected s = true →
  email ∉ user_email <$> users s →
  InvalidCredential (response (login isEmail bcrypt_compare email (Some pw)) s) ∧
  issued (login isEmail bcrypt_compare email (Some pw)) s = [] ∧
  uncaught (login isEmail bcrypt_compare email (Some pw)) s = None.
Proof.
  intros He Hc Hno.
  assert (list_find (λ u, user_email u = email) (users s) = None) as Hu.
  { apply list_find_None. apply Forall_forall. intros u Hin Heq.
    apply Hno. apply list_elem_of_fmap. exists u. done. }
  unfold InvalidCredential, response, issued, uncaught, serve.
  rewrite (login_unknown_email _ _ _ _ _ He Hc Hu). done.
Qed.

(** X24: a request whose email is not one, or that has no password, is answered
    with 400 and the validators' messages before the store is asked, so
    also without a connection; no token is signed. *)
Theorem login_invalid_input (s : Store) (email : string)
    (password : option string) :
  isEmail email = false ∨ password = None →
  validate_login isEmail email password ≠ [] ∧
  response (login isEmail bcrypt_compare email password) s
    = Some {| status := 400;
              body := Errors (validate_login isEmail email password) |} ∧
  issued (login isEmail bcrypt_compare email password) s = [] ∧
  uncaught (login isEmail bcrypt_compare email password) s = None ∧
  store_after (login isEmail bcrypt_compare email password) s = s.
Proof.
  unfold response, issued, uncaught, store_after, serve, login, validate_login.
  intros [He| ->].
  - rewrite He. destruct password; simpl; done.
  - destruct (isEmail email); simpl; done.
Qed.

(** X25: a well-formed login request on a store that cannot be reached is
    answered with 500 "Server error"; no token is signed. *)
Theorem login_store_down (s : Store) (email pw : string) :
  isEmail email = true →
  connected s = false →
  response (login isEmail bcrypt_compare email (Some pw)) s
    = Some {| status := 500; body := Text "Server error" |} ∧
  issued (login isEmail bcrypt_compare email (Some pw)) s = [] ∧
  uncaught (login isEmail bcrypt_compare email (Some pw)) s = None.
Proof.
  intros He Hc. unfold response, issued, uncaught, serve.
  unfold_login. rewrite He. simpl. rewrite Hc. done.
Qed.

End MoreAuth.

(** ** The further theorems at the demo store *)

Lemma posts_js_touches_one_post_witness :
  Demo.pid ≠ target (CreatePost Demo.u2 "salut" Demo.new_pid) ∧
  posts (store_after (route Demo.castable (CreatePost Demo.u2 "salut" Demo.new_pid))
                     Demo.store0) !! Demo.pid
    = posts Demo.store0 !! Demo.pid.
Proof.
  assert (Demo.pid ≠ target (CreatePost Demo.u2 "salut" Demo.new_pid)) as Hk
    by (intros E; vm_compute in E; discriminate E).
  split; [exact Hk|].
  exact (proj1 (posts_js_touches_one_post Demo.castable _ Demo.store0 _ Hk)).
Defined.

Lemma posts_js_failure_keeps_store_witness :
  ¬ Succeeded (response (route Demo.castable (LikePost Demo.pid Demo.u1))
                        Demo.store_liked) ∧
  store_after (route Demo.castable (LikePost Demo.pid Demo.u1)) Demo.store_liked
    = Demo.store_liked.
Proof.
  assert (¬ Succeeded (response (route Demo.castable (LikePost Demo.pid Demo.u1))
                                Demo.store_liked)) as Hno
    by (intros E; vm_compute in E; discriminate E).
  split; [exact Hno|].
  exact (posts_js_failure_keeps_store Demo.castable _ _ Hno).
Defined.

Lemma store_down_is_500_witness :
  connected Demo.store_down = false ∧
  Demo.castable Demo.pid = true ∧
  "hi" ≠ "" ∧
  StoreUnavailable (response (getById Demo.castable Demo.pid) Demo.store_down) ∧
  StoreUnavailable (response (like Demo.castable Demo.pid Demo.u2) Demo.store_down).
Proof.
  assert (connected Demo.store_down = false) as Hd by reflexivity.
  assert (Demo.castable Demo.pid = true) as Hid by reflexivity.
  assert ("hi" ≠ "") as Htext by discriminate.
  split; [exact Hd|]. split; [exact Hid|]. split; [exact Htext|].
  destruct (store_down_is_500 Demo.castable Demo.store_down Demo.pid Demo.u2
              Demo.cid "hi" Demo.cid Hd Hid Htext)
    as (_ & Hget & _ & Hlike & _).
  split; [exact Hget | exact Hlike].
Defined.

Lemma unlike_without_like_witness :
  lookup_post Demo.castable Demo.store_liked Demo.pid = inr (Some Demo.P_liked) ∧
  (Demo.u2 ∉ like_user <$> likes Demo.P_liked) ∧
  response (unlike Demo.castable Demo.pid Demo.u2) Demo.store_liked
    = Some {| status := 400; body := Msg "You dind't lik it before." |} ∧
  store_after (unlike Demo.castable Demo.pid Demo.u2) Demo.store_liked
    = Demo.store_liked.
Proof.
  assert (lookup_post Demo.castable Demo.store_liked Demo.pid
          = inr (Some Demo.P_liked)) as Hp by (vm_compute; reflexivity).
  assert (Demo.u2 ∉ like_user <$> likes Demo.P_liked) as Hno.
  { simpl. intros E%list_elem_of_singleton. vm_compute in E. discriminate E. }
  split; [exact Hp|]. split; [exact Hno|].
  exact (unlike_without_like Demo.castable _ _ _ _ Hp Hno).
Defined.

Lemma unlike_removes_first_like_witness :
  lookup_post Demo.castable Demo.store_liked Demo.pid = inr (Some Demo.P_liked) ∧
  Demo.u1 ∈ like_user <$> likes Demo.P_liked ∧
  ∃ (before after : list Like),
    likes Demo.P_liked = (before ++ {| like_user := Demo.u1 |} :: after)%list ∧
    (∀ l, l ∈ before → like_user l ≠ Demo.u1) ∧
    response (unlike Demo.castable Demo.pid Demo.u1) Demo.store_liked
      = Some {| status := 200; body := LikeList (before ++ after)%list |} ∧
    posts (store_after (unlike Demo.castable Demo.pid Demo.u1) Demo.store_liked)
      !! Demo.pid = Some (set_likes (before ++ after)%list Demo.P_liked) ∧
    (one_like_per_user Demo.P_liked →
     Demo.u1 ∉ like_user <$> (before ++ after)%list).
Proof.
  assert (lookup_post Demo.castable Demo.store_liked Demo.pid
          = inr (Some Demo.P_liked)) as Hp by (vm_compute; reflexivity).
  assert (Demo.u1 ∈ like_user <$> likes Demo.P_liked) as Hin
    by (simpl; apply list_elem_of_here).
  split; [exact Hp|]. split; [exact Hin|].
  exact (unlike_removes_first_like Demo.castable _ _ _ _ Hp Hin).
Defined.

Lemma addComment_prepends_witness :
  lookup_user Demo.castable Demo.store0 Demo.u2 = inr (Some Demo.U2) ∧
  lookup_post Demo.castable Demo.store0 Demo.pid = inr (Some Demo.P) ∧
  "hi" ≠ "" ∧
  response (addComment Demo.castable Demo.pid Demo.u2 "hi" Demo.cid) Demo.store0
    = Some {| status := 200; body := PostDoc Demo.P_commented |} ∧
  response (getById Demo.castable Demo.pid) Demo.store_commented
    = Some {| status := 200; body := PostDoc Demo.P_commented |} ∧
  find_comment Demo.cid (comments Demo.P_commented) = Some Demo.hi.
Proof.
  assert (lookup_user Demo.castable Demo.store0 Demo.u2 = inr (Some Demo.U2))
    as Hu by (vm_compute; reflexivity).
  assert (lookup_post Demo.castable Demo.store0 Demo.pid = inr (Some Demo.P))
    as Hp by (vm_compute; reflexivity).
  assert ("hi" ≠ "") as Htext by discriminate.
  split; [exact Hu|]. split; [exact Hp|]. split; [exact Htext|].
  destruct (addComment_prepends Demo.castable _ _ _ _ Demo.cid _ _ Hu Hp Htext)
    as (Hr & Hg & _ & Hf).
  split; [exact Hr|]. split; [exact Hg | exact Hf].
Defined.

Lemma addComment_removeComment_roundtrip_witness :
  lookup_user Demo.castable Demo.store0 Demo.u2 = inr (Some Demo.U2) ∧
  lookup_post Demo.castable Demo.store0 Demo.pid = inr (Some Demo.P) ∧
  "hi" ≠ "" ∧
  response (removeComment Demo.castable Demo.pid Demo.cid Demo.u2)
           Demo.store_commented
    = Some {| status := 200; body := CommentList [] |} ∧
  store_after (removeComment Demo.castable Demo.pid Demo.cid Demo.u2)
              Demo.store_commented = Demo.store0.
Proof.
  assert (lookup_user Demo.castable Demo.store0 Demo.u2 = inr (Some Demo.U2))
    as Hu by (vm_compute; reflexivity).
  assert (lookup_post Demo.castable Demo.store0 Demo.pid = inr (Some Demo.P))
    as Hp by (vm_compute; reflexivity).
  assert ("hi" ≠ "") as Htext by discriminate.
  split; [exact Hu|]. split; [exact Hp|]. split; [exact Htext|].
  exact (addComment_removeComment_roundtrip Demo.castable _ _ _ _ Demo.cid _ _
           Hu Hp Htext).
Defined.

Lemma removeComment_unknown_comment_witness :
  lookup_post Demo.castable Demo.store_commented Demo.pid
    = inr (Some Demo.P_commented) ∧
  (Demo.cid' ∉ comment_id <$> comments Demo.P_commented) ∧
  response (removeComment Demo.castable Demo.pid Demo.cid' Demo.u2)
           Demo.store_commented
    = Some {| status := 404; body := Msg "Comment does not exist !" |} ∧
  store_after (removeComment Demo.castable Demo.pid Demo.cid' Demo.u2)
              Demo.store_commented = Demo.store_commented.
Proof.
  assert (lookup_post Demo.castable Demo.store_commented Demo.pid
          = inr (Some Demo.P_commented)) as Hp by (vm_compute; reflexivity).
  assert (Demo.cid' ∉ comment_id <$> comments Demo.P_commented) as Hno.
  { simpl. intros E%list_elem_of_singleton. vm_compute in E. discriminate E. }
  split; [exact Hp|]. split; [exact Hno|].
  exact (removeComment_unknown_comment Demo.castable _ _ _ Demo.u2 _ Hp Hno).
Defined.

Lemma removeComment_spares_target_witness :
  lookup_post Demo.castable Demo.store_commented_twice Demo.pid
    = inr (Some Demo.P_commented_twice) ∧
  comments Demo.P_commented_twice = ([] ++ Demo.again :: [Demo.hi])%list ∧
  comment_user Demo.again = Demo.u2 ∧
  comment_id Demo.again ≠ Demo.cid ∧
  find_comment Demo.cid (comments Demo.P_commented_twice) = Some Demo.hi ∧
  comment_user Demo.hi = Demo.u2 ∧
  response (removeComment Demo.castable Demo.pid Demo.cid Demo.u2)
           Demo.store_commented_twice
    = Some {| status := 200; body := CommentList [Demo.hi] |} ∧
  find_comment Demo.cid [Demo.hi] = Some Demo.hi.
Proof.
  assert (lookup_post Demo.castable Demo.store_commented_twice Demo.pid
          = inr (Some Demo.P_commented_twice)) as Hp
    by (vm_compute; reflexivity).
  assert (comments Demo.P_commented_twice = ([] ++ Demo.again :: [Demo.hi])%list)
    as Hsplit by reflexivity.
  assert (comment_user Demo.again = Demo.u2) as H0 by reflexivity.
  assert (∀ x : Comment, x ∈ [] → comment_user x ≠ Demo.u2) as Hb
    by (intros x Hx; apply elem_of_nil in Hx; destruct Hx).
  assert (comment_id Demo.again ≠ Demo.cid) as Hid
    by (intros E; vm_compute in E; discriminate E).
  assert (find_comment Demo.cid (comments Demo.P_commented_twice) = Some Demo.hi)
    as Hc by (vm_compute; reflexivity).
  assert (comment_user Demo.hi = Demo.u2) as Hcu by reflexivity.
  split; [exact Hp|]. split; [exact Hsplit|]. split; [exact H0|].
  split; [exact Hid|]. split; [exact Hc|]. split; [exact Hcu|].
  destruct (removeComment_spares_target Demo.castable _ _ _ _ _ _ _ _ _
              Hp Hsplit H0 Hb Hid Hc Hcu) as (Hr & _ & Hf).
  split; [exact Hr | exact Hf].
Defined.

Lemma removeComment_removes_target_witness :
  lookup_post Demo.castable Demo.store_commented_twice Demo.pid
    = inr (Some Demo.P_commented_twice) ∧
  comments Demo.P_commented_twice = ([] ++ Demo.again :: [Demo.hi])%list ∧
  comment_id Demo.again = Demo.cid' ∧
  comment_user Demo.again = Demo.u2 ∧
  NoDup (comment_id <$> comments Demo.P_commented_twice) ∧
  response (removeComment Demo.castable Demo.pid Demo.cid' Demo.u2)
           Demo.store_commented_twice
    = Some {| status := 200; body := CommentList [Demo.hi] |} ∧
  find_comment Demo.cid' [Demo.hi] = None.
Proof.
  assert (lookup_post Demo.castable Demo.store_commented_twice Demo.pid
          = inr (Some Demo.P_commented_twice)) as Hp
    by (vm_compute; reflexivity).
  assert (comments Demo.P_commented_twice = ([] ++ Demo.again :: [Demo.hi])%list)
    as Hsplit by reflexivity.
  assert (comment_id Demo.again = Demo.cid') as Hid by reflexivity.
  assert (comment_user Demo.again = Demo.u2) as Hcu by reflexivity.
  assert (∀ x : Comment, x ∈ [] → comment_user x ≠ Demo.u2) as Hb
    by (intros x Hx; apply elem_of_nil in Hx; destruct Hx).
  assert (NoDup (comment_id <$> comments Demo.P_commented_twice)) as Hnd.
  { simpl. apply NoDup_cons. split; [|apply NoDup_singleton].
    intros E%list_elem_of_singleton. vm_compute in E. discriminate E. }
  split; [exact Hp|]. split; [exact Hsplit|]. split; [exact Hid|].
  split; [exact Hcu|]. split; [exact Hnd|].
  destruct (removeComment_removes_target Demo.castable _ _ _ _ _ _ _ _
              Hp Hsplit Hid Hcu Hb Hnd) as (Hr & _ & Hf).
  split; [exact Hr | exact Hf].
Defined.

Lemma createPost_then_getById_witness :
  lookup_user Demo.castable Demo.store0 Demo.u2 = inr (Some Demo.U2) ∧
  Demo.castable Demo.new_pid = true ∧
  "salut" ≠ "" ∧
  response (createPost Demo.castable Demo.u2 "salut" Demo.new_pid) Demo.store0
    = Some {| status := 200; body := PostDoc Demo.P_new |} ∧
  response (getById Demo.castable Demo.new_pid)
           (store_after (createPost Demo.castable Demo.u2 "salut" Demo.new_pid)
                        Demo.store0)
    = Some {| status := 200; body := PostDoc Demo.P_new |}.
Proof.
  assert (lookup_user Demo.castable Demo.store0 Demo.u2 = inr (Some Demo.U2))
    as Hu by (vm_compute; reflexivity).
  assert (Demo.castable Demo.new_pid = true) as Hid by reflexivity.
  assert ("salut" ≠ "") as Htext by discriminate.
  split; [exact Hu|]. split; [exact Hid|]. split; [exact Htext|].
  exact (createPost_then_getById Demo.castable _ _ _ _ _ Hu Hid Htext).
Defined.

Lemma createPost_deleteById_roundtrip_witness :
  lookup_user Demo.castable Demo.store0 Demo.u2 = inr (Some Demo.U2) ∧
  Demo.castable Demo.new_pid = true ∧
  posts Demo.store0 !! Demo.new_pid = None ∧
  "salut" ≠ "" ∧
  response (deleteById Demo.castable Demo.new_pid Demo.u2)
           (store_after (createPost Demo.castable Demo.u2 "salut" Demo.new_pid)
                        Demo.store0)
    = Some {| status := 200; body := Msg "Post removed." |} ∧
  store_after (deleteById Demo.castable Demo.new_pid Demo.u2)
              (store_after (createPost Demo.castable Demo.u2 "salut" Demo.new_pid)
                           Demo.store0)
    = Demo.store0.
Proof.
  assert (lookup_user Demo.castable Demo.store0 Demo.u2 = inr (Some Demo.U2))
    as Hu by (vm_compute; reflexivity).
  assert (Demo.castable Demo.new_pid = true) as Hid by reflexivity.
  assert (posts Demo.store0 !! Demo.new_pid = None) as Hnew
    by (vm_compute; reflexivity).
  assert ("salut" ≠ "") as Htext by discriminate.
  split; [exact Hu|]. split; [exact Hid|]. split; [exact Hnew|].
  split; [exact Htext|].
  exact (createPost_deleteById_roundtrip Demo.castable _ _ _ _ _
           Hu Hid Hnew Htext).
Defined.

Lemma created_post_keeps_unique_likes_witness :
  let ops := [OpLike Demo.new_pid Demo.u1; OpLike Demo.new_pid Demo.u1;
              OpLike Demo.new_pid Demo.u2; OpUnlike Demo.new_pid Demo.u1] in
  let p := set_likes [ {| like_user := Demo.u2 |} ] Demo.P_new in
  Succeeded (response (createPost Demo.castable Demo.u2 "salut" Demo.new_pid)
                      Demo.store0) ∧
  posts (run_ops Demo.castable ops
           (store_after (createPost Demo.castable Demo.u2 "salut" Demo.new_pid)
                        Demo.store0)) !! Demo.new_pid = Some p ∧
  one_like_per_user p.
Proof.
  intros ops p.
  assert (Succeeded (response (createPost Demo.castable Demo.u2 "salut"
                                 Demo.new_pid) Demo.store0)) as Hok
    by (vm_compute; reflexivity).
  assert (posts (run_ops Demo.castable ops
                   (store_after (createPost Demo.castable Demo.u2 "salut"
                                   Demo.new_pid) Demo.store0)) !! Demo.new_pid
          = Some p) as Hp by (vm_compute; reflexivity).
  split; [exact Hok|]. split; [exact Hp|].
  exact (created_post_keeps_unique_likes Demo.castable _ _ _ _ ops p Hok Hp).
Defined.

Lemma login_tokens_for_stored_users_witness :
  let t := {| token_user := Demo.u1; token_expiresIn := 36000 |} in
  t ∈ issued (Demo.login "u1@x.com" (Some "secret1")) Demo.store0 ∧
  ∃ u, u ∈ users Demo.store0 ∧ user_email u = "u1@x.com" ∧
       t = {| token_user := user_id u; token_expiresIn := 36000 |}.
Proof.
  intros t.
  assert (t ∈ issued (Demo.login "u1@x.com" (Some "secret1")) Demo.store0)
    as Hin by (vm_compute; apply list_elem_of_here).
  split; [exact Hin|].
  exact (login_tokens_for_stored_users Demo.isEmail Demo.bcrypt_compare
           Demo.store0 "u1@x.com" (Some "secret1") t Hin).
Defined.

Lemma login_success_witness :
  Demo.isEmail "u2@x.com" = true ∧
  connected Demo.store0 = true ∧
  list_find (λ u, user_email u = "u2@x.com") (users Demo.store0)
    = Some (1%nat, Demo.U2) ∧
  Demo.bcrypt_compare "secret2" (user_password Demo.U2) = true ∧
  response (Demo.login "u2@x.com" (Some "secret2")) Demo.store0
    = Some {| status := 200;
              body := TokenBody {| token_user := Demo.u2;
                                   token_expiresIn := 36000 |} |} ∧
  issued (Demo.login "u2@x.com" (Some "secret2")) Demo.store0
    = [ {| token_user := Demo.u2; token_expiresIn := 36000 |} ] ∧
  uncaught (Demo.login "u2@x.com" (Some "secret2")) Demo.store0 = None.
Proof.
  assert (Demo.isEmail "u2@x.com" = true) as He by reflexivity.
  assert (connected Demo.store0 = true) as Hc by reflexivity.
  assert (list_find (λ u, user_email u = "u2@x.com") (users Demo.store0)
          = Some (1%nat, Demo.U2)) as Hu by (vm_compute; reflexivity).
  assert (Demo.bcrypt_compare "secret2" (user_password Demo.U2) = true)
    as Hm by (vm_compute; reflexivity).
  split; [exact He|]. split; [exact Hc|]. split; [exact Hu|].
  split; [exact Hm|].
  exact (login_success Demo.isEmail Demo.bcrypt_compare _ _ _ _ _
           He Hc Hu Hm).
Defined.

Lemma login_unknown_email_rejected_witness :
  Demo.isEmail "nobody@x.com" = true ∧
  connected Demo.store0 = true ∧
  ("nobody@x.com" ∉ user_email <$> users Demo.store0) ∧
  InvalidCredential (response (Demo.login "nobody@x.com" (Some "secret1"))
                              Demo.store0) ∧
  issued (Demo.login "nobody@x.com" (Some "secret1")) Demo.store0 = [] ∧
  uncaught (Demo.login "nobody@x.com" (Some "secret1")) Demo.store0 = None.
Proof.
  assert (Demo.isEmail "nobody@x.com" = true) as He by reflexivity.
  assert (connected Demo.store0 = true) as Hc by reflexivity.
  assert ("nobody@x.com" ∉ user_email <$> users Demo.store0) as Hno.
  { simpl. intros E.
    apply elem_of_cons in E as [E|E]; [discriminate E|].
    apply list_elem_of_singleton in E. discriminate E. }
  split; [exact He|]. split; [exact Hc|]. split; [exact Hno|].
  exact (login_unknown_email_rejected Demo.isEmail Demo.bcrypt_compare _ _
           "secret1" He Hc Hno).
Defined.

Lemma login_invalid_input_witness :
  (Demo.isEmail "not-an-email" = false ∨ @None string = None) ∧
  response (Demo.login "not-an-email" None) Demo.store_down
    = Some {| status := 400;
              body := Errors ["Please enter a valid email";
                              "You must enter a password"] |} ∧
  issued (Demo.login "not-an-email" None) Demo.store_down = [].
Proof.
  assert (Demo.isEmail "not-an-email" = false ∨ @None string = None) as Hbad
    by (left; reflexivity).
  split; [exact Hbad|].
  destruct (login_invalid_input Demo.isEmail Demo.bcrypt_compare
              Demo.store_down "not-an-email" None Hbad)
    as (_ & Hr & Hi & _).
  split; [exact Hr | exact Hi].
Defined.

Lemma login_store_down_witness :
  Demo.isEmail "u1@x.com" = true ∧
  connected Demo.store_down = false ∧
  response (Demo.login "u1@x.com" (Some "secret1")) Demo.store_down
    = Some {| status := 500; body := Text "Server error" |} ∧
  issued (Demo.login "u1@x.com" (Some "secret1")) Demo.store_down = [] ∧
  uncaught (Demo.login "u1@x.com" (Some "secret1")) Demo.store_down = None.
Proof.
  assert (Demo.isEmail "u1@x.com" = true) as He by reflexivity.
  assert (connected Demo.store_down = false) as Hc by reflexivity.
  split; [exact He|]. split; [exact Hc|].
  exact (login_store_down Demo.isEmail Demo.bcrypt_compare _ _ "secret1" He Hc).
Defined.

Lemma stored_post_keeps_author_witness :
  let r := LikePost Demo.pid Demo.u2 in
  let p' := set_likes [ {| like_user := Demo.u2 |} ] Demo.P_commented in
  (∀ user text new_id, r ≠ CreatePost user text new_id) ∧
  posts Demo.store_commented !! target r = Some Demo.P_commented ∧
  posts (store_after (route Demo.castable r) Demo.store_commented) !! target r
    = Some p' ∧
  post_user p' = post_user Demo.P_commented ∧
  comments p' = comments Demo.P_commented.
Proof.
  intros r p'.
  assert (∀ user text new_id, r ≠ CreatePost user text new_id) as Hnc
    by (intros user text new_id E; discriminate E).
  assert (posts Demo.store_commented !! target r = Some Demo.P_commented)
    as Hp by (vm_compute; reflexivity).
  assert (posts (store_after (route Demo.castable r) Demo.store_commented)
            !! target r = Some p') as Hp' by (vm_compute; reflexivity).
  split; [exact Hnc|]. split; [exact Hp|]. split; [exact Hp'|].
  destruct (stored_post_keeps_author Demo.castable r _ _ _ Hnc Hp Hp')
    as (Hu & _ & _ & _ & Hcs).
  split; [exact Hu | exact Hcs].
Defined.
